(** * Verification of the classification-and-extraction pipeline of
    avature-scraper ([src/src/extract/job_extractor.py]).

    Python text is modelled by Rocq [string] over ASCII characters (a
    character outside ASCII is outside the model).  The parts of the
    Python standard library the extractor relies on ([str] methods,
    [urllib.parse.urlparse]) are written out from CPython's
    [Lib/urllib/parse.py].  Exceptions are modelled with [option]: [None]
    is "the call raised". *)

From Stdlib Require Import String Ascii List Bool Arith ZArith Lia.
Import ListNotations.
Open Scope string_scope.
Open Scope nat_scope.
Local Set Warnings "-abstract-large-number".

(** ** Python [str] primitives *)
Module PyStr.

Definition code (c : ascii) : nat := nat_of_ascii c.

Definition is_upper (c : ascii) : bool := (65 <=? code c) && (code c <=? 90).
Definition is_lower (c : ascii) : bool := (97 <=? code c) && (code c <=? 122).
Definition is_alpha (c : ascii) : bool := is_upper c || is_lower c.
Definition is_digit (c : ascii) : bool := (48 <=? code c) && (code c <=? 57).

(** [str.lower] *)
Definition lower_char (c : ascii) : ascii :=
  if is_upper c then ascii_of_nat (code c + 32) else c.

Fixpoint lower (s : string) : string :=
  match s with
  | EmptyString => EmptyString
  | String c r => String (lower_char c) (lower r)
  end.

(** [sub in s] *)
Fixpoint str_in (sub s : string) : bool :=
  prefix sub s ||
  match s with
  | EmptyString => false
  | String _ r => str_in sub r
  end.

(** [s.startswith(p)] *)
Definition startswith (s p : string) : bool := prefix p s.

(** [s.endswith(suf)] *)
Fixpoint endswith (s suf : string) : bool :=
  String.eqb s suf ||
  match s with
  | EmptyString => false
  | String _ r => endswith r suf
  end.

(** [s.rstrip("/")] *)
Fixpoint rstrip_slash (s : string) : string :=
  match s with
  | EmptyString => EmptyString
  | String c r =>
      let r' := rstrip_slash r in
      if String.eqb r' "" && Ascii.eqb c "/" then "" else String c r'
  end.

(** [s.split(d)] for a one-character separator [d] *)
Fixpoint split_on (d : ascii) (s : string) : list string :=
  match s with
  | EmptyString => [""]
  | String c r =>
      if Ascii.eqb c d then "" :: split_on d r
      else match split_on d r with
           | [] => [String c ""]
           | x :: xs => String c x :: xs
           end
  end.

(** [[x for x in s.split("/") if x]] *)
Definition segments (s : string) : list string :=
  filter (fun x => negb (String.eqb x "")) (split_on "/" s).

(** [s.split(d, 1)] when [d in s]: the text before and after the first [d] *)
Fixpoint split_first (d : ascii) (s : string) : option (string * string) :=
  match s with
  | EmptyString => None
  | String c r =>
      if Ascii.eqb c d then Some ("", r)
      else match split_first d r with
           | Some (a, b) => Some (String c a, b)
           | None => None
           end
  end.

(** [s.find(c)] and [s.rfind(c)], [None] for [-1] *)
Fixpoint find_char (d : ascii) (s : string) : option nat :=
  match s with
  | EmptyString => None
  | String c r => if Ascii.eqb c d then Some 0 else option_map S (find_char d r)
  end.

Fixpoint rfind_aux (d : ascii) (s : string) (i : nat) (acc : option nat) : option nat :=
  match s with
  | EmptyString => acc
  | String c r => rfind_aux d r (S i) (if Ascii.eqb c d then Some i else acc)
  end.

Definition rfind_char (d : ascii) (s : string) : option nat := rfind_aux d s 0 None.

(** [s.find(d, start)] *)
Definition find_char_from (d : ascii) (s : string) (start : nat) : option nat :=
  option_map (fun i => start + i) (find_char d (substring start (String.length s - start) s)).

(** [s[:n]] and [s[n:]] for [0 <= n] *)
Definition take (n : nat) (s : string) : string := substring 0 n s.
Definition drop (n : nat) (s : string) : string := substring n (String.length s - n) s.

(** [s.lstrip(_WHATWG_C0_CONTROL_OR_SPACE)]: every character up to U+0020 *)
Fixpoint lstrip_c0 (s : string) : string :=
  match s with
  | EmptyString => EmptyString
  | String c r => if code c <=? 32 then lstrip_c0 r else s
  end.

(** removal of [_UNSAFE_URL_BYTES_TO_REMOVE] = tab, CR, LF *)
Fixpoint remove_unsafe (s : string) : string :=
  match s with
  | EmptyString => EmptyString
  | String c r =>
      if (code c =? 9) || (code c =? 13) || (code c =? 10) then remove_unsafe r
      else String c (remove_unsafe r)
  end.

(** [str.isspace] on ASCII: space, \t \n \x0b \x0c \r and \x1c .. \x1f *)
Definition is_space (c : ascii) : bool :=
  (code c =? 32) || ((9 <=? code c) && (code c <=? 13))
  || ((28 <=? code c) && (code c <=? 31)).

Fixpoint lstrip_ws (s : string) : string :=
  match s with
  | EmptyString => EmptyString
  | String c r => if is_space c then lstrip_ws r else s
  end.

Fixpoint rstrip_ws (s : string) : string :=
  match s with
  | EmptyString => EmptyString
  | String c r =>
      let r' := rstrip_ws r in
      if String.eqb r' "" && is_space c then "" else String c r'
  end.

(** [s.strip()] *)
Definition strip (s : string) : string := rstrip_ws (lstrip_ws s).

End PyStr.
Import PyStr.

(** ** [urllib.parse.urlparse] (CPython 3.12) *)

Record ParseResult := {
  scheme : string;
  netloc : string;
  path : string;
  params : string;
  query : string;
  fragment : string
}.

(** [scheme_chars]: ASCII letters, digits and "+-." *)
Definition scheme_char (c : ascii) : bool :=
  is_alpha c || is_digit c || Ascii.eqb c "+" || Ascii.eqb c "-" || Ascii.eqb c ".".

(** The scheme step of [urlsplit]: [i = url.find(':')]; when [i > 0], the
    first character is an ASCII letter and [url[:i]] is made of
    [scheme_chars], the scheme is [url[:i].lower()] and [url] becomes
    [url[i+1:]]. *)
Definition split_scheme (url : string) : string * string :=
  match split_first ":" url with
  | Some (pre, post) =>
      match pre with
      | EmptyString => ("", url)
      | String c0 _ =>
          if is_alpha c0 && forallb scheme_char (list_ascii_of_string pre)
          then (lower pre, post) else ("", url)
      end
  | None => ("", url)
  end.

(** [_splitnetloc(url, 2)] for an [url] that starts with "//": the netloc
    runs up to the first of '/', '?', '#'. *)
Fixpoint netloc_end (s : string) : string * string :=
  match s with
  | EmptyString => ("", "")
  | String c r =>
      if Ascii.eqb c "/" || Ascii.eqb c "?" || Ascii.eqb c "#" then ("", s)
      else let '(a, b) := netloc_end r in (String c a, b)
  end.

Definition splitnetloc (url : string) : string * string := netloc_end (drop 2 url).

(** [uses_params] *)
Definition uses_params : list string :=
  [""; "ftp"; "hdl"; "prospero"; "http"; "imap"; "https"; "shttp"; "rtsp";
   "rtsps"; "rtspu"; "sip"; "sips"; "mms"; "sftp"; "tel"].

(** [_splitparams(url)], called when [';' in url] *)
Definition splitparams (url : string) : string * string :=
  let cut i := (take i url, drop (S i) url) in
  match rfind_char "/" url with
  | Some j =>
      match find_char_from ";" url j with
      | Some i => cut i
      | None => (url, "")
      end
  | None =>
      match find_char ";" url with
      | Some i => cut i
      | None => (url, "")
      end
  end.

(** Before 3.11.4 [urlsplit] did not validate a bracketed host; from then on
    [_check_bracketed_netloc] may raise [ValueError] for a netloc holding
    both '[' and ']'.  That check is a parameter of the development
    ([true]: no exception); this is the behaviour of the versions without
    it. *)
Definition no_bracket_check (netloc : string) : bool := true.

Section Extractor.

Variable check_bracketed_netloc : string -> bool.

Definition urlsplit (url0 : string) : option (string * string * string * string * string) :=
  let url1 := remove_unsafe (lstrip_c0 url0) in
  let '(sch, url2) := split_scheme url1 in
  let nl_ok :=
    if prefix "//" url2 then
      let '(nl, rest) := splitnetloc url2 in
      let ob := str_in "[" nl in
      let cb := str_in "]" nl in
      if (ob && negb cb) || (cb && negb ob) then None
      else if ob && cb then
        (if check_bracketed_netloc nl then Some (nl, rest) else None)
      else Some (nl, rest)
    else Some ("", url2) in
  match nl_ok with
  | None => None
  | Some (nl, url3) =>
      let '(url4, frag) :=
        match split_first "#" url3 with Some p => p | None => (url3, "") end in
      let '(url5, q) :=
        match split_first "?" url4 with Some p => p | None => (url4, "") end in
      Some (sch, nl, url5, q, frag)
  end.

Definition urlparse (url : string) : option ParseResult :=
  match urlsplit url with
  | None => None
  | Some (sch, nl, u, q, frag) =>
      let '(u', prm) :=
        if existsb (String.eqb sch) uses_params && str_in ";" u
        then splitparams u else (u, "") in
      Some {| scheme := sch; netloc := nl; path := u'; params := prm;
              query := q; fragment := frag |}
  end.

(** ** URL role classifiers *)

(** [(p.path or "").rstrip("/").lower()] *)
Definition norm_path (p : ParseResult) : string := lower (rstrip_slash (path p)).

Definition is_likely_career_hub (url : string) : option bool :=
  match urlparse url with
  | None => None
  | Some p =>
      let pth := norm_path p in
      Some (if String.eqb pth "" || existsb (String.eqb pth) [""; "/"; "/careers"; "/jobs"]
            then true
            else if str_in "/careers/" pth || str_in "/jobs/" pth
            then length (segments pth) <=? 2
            else false)
  end.

Definition is_likely_job_page (url : string) : option bool :=
  match urlparse url with
  | None => None
  | Some p =>
      let pth := norm_path p in
      Some (if String.eqb pth "" || existsb (String.eqb pth) [""; "/"] then false
            else if str_in "/blogs/" pth || str_in "/blog/" pth then true
            else 2 <=? length (segments pth))
  end.

Definition is_listing_page (url : string) : option bool :=
  match urlparse url with
  | None => None
  | Some p =>
      let pth := norm_path p in
      Some (if String.eqb pth "" then false
            else if str_in "searchjobs" pth && negb (str_in "/jobdetail" pth) then true
            else if (length (segments pth) <=? 2) && (str_in "careers" pth || str_in "jobs" pth)
            then true
            else if endswith pth "/careers" || endswith pth "/jobs" then true
            else false)
  end.

(** ** Job-posting admission filter *)

Definition RSS_NON_JOB_PATH_PATTERNS : list string :=
  ["/blogs/"; "/blog/"; "avatureupfront"; "hr-trends"; "test-cookies"].

(** [netloc in ("www.avature.net", "avature.net")] *)
Definition vendor_host (nl : string) : bool :=
  existsb (String.eqb nl) ["www.avature.net"; "avature.net"].

Definition is_likely_job_posting (application_url job_title source_feed : string)
  : option bool :=
  if String.eqb application_url "" then Some false else
  match urlparse application_url with
  | None => None
  | Some purl =>
      let pth := lower (path purl) in
      let nl := lower (netloc purl) in
      let title := lower job_title in
      let rest :=
        if existsb (fun pattern => str_in pattern pth || str_in pattern title)
                   RSS_NON_JOB_PATH_PATTERNS then false
        else if str_in ".avature.net" nl && negb (vendor_host nl)
                && (str_in "/careers" pth || str_in "/jobs" pth || str_in "searchjobs" pth
                    || str_in "careers" pth || str_in "jobs" pth) then true
        else if str_in "/careers/" pth || str_in "/jobs/" pth || str_in "searchjobs" pth
        then true
        else if endswith pth "/careers" || endswith pth "/jobs"
                || str_in "/careers" pth || str_in "/jobs" pth then true
        else false in
      Some (if vendor_host nl then
              if str_in "/blogs/" pth || str_in "/blog/" pth
                 || str_in "avatureupfront" pth || str_in "hr-trends" pth then false
              else if negb (str_in "/careers/" pth) && negb (str_in "/jobs/" pth)
                      && negb (str_in "searchjobs" pth) then false
              else rest
            else rest)
  end.

(** ** Job records and the corpus *)

(** A Python [dict] of [str -> str | None], in insertion order. *)
Definition dict := list (string * option string).

Fixpoint dict_get (d : dict) (k : string) : option (option string) :=
  match d with
  | [] => None
  | (k', v) :: r => if String.eqb k k' then Some v else dict_get r k
  end.

(** [d[k] = v] *)
Fixpoint dict_set (d : dict) (k : string) (v : option string) : dict :=
  match d with
  | [] => [(k, v)]
  | (k', v') :: r => if String.eqb k k' then (k, v) :: r else (k', v') :: dict_set r k v
  end.

(** [{**a, **b}] *)
Definition dict_update (a b : dict) : dict :=
  fold_left (fun acc kv => dict_set acc (fst kv) (snd kv)) b a.

Record JobRecord := {
  job_title : string;
  job_description : string;
  application_url : string;
  metadata : dict;
  source_site : string;
  source_url : string;
  extracted_at : option string
}.

Definition set_extracted_at (j : JobRecord) (t : string) : JobRecord :=
  {| job_title := job_title j; job_description := job_description j;
     application_url := application_url j; metadata := metadata j;
     source_site := source_site j; source_url := source_url j;
     extracted_at := Some t |}.

Definition set_job_title (j : JobRecord) (t : string) : JobRecord :=
  {| job_title := t; job_description := job_description j;
     application_url := application_url j; metadata := metadata j;
     source_site := source_site j; source_url := source_url j;
     extracted_at := extracted_at j |}.

Definition set_job_description (j : JobRecord) (d : string) : JobRecord :=
  {| job_title := job_title j; job_description := d;
     application_url := application_url j; metadata := metadata j;
     source_site := source_site j; source_url := source_url j;
     extracted_at := extracted_at j |}.

Definition set_metadata (j : JobRecord) (m : dict) : JobRecord :=
  {| job_title := job_title j; job_description := job_description j;
     application_url := application_url j; metadata := m;
     source_site := source_site j; source_url := source_url j;
     extracted_at := extracted_at j |}.

(** The state [run_extraction] threads through [add_job]: the list
    [all_jobs] and the set [seen_keys] (kept in insertion order). *)
Record corpus := {
  all_jobs : list JobRecord;
  seen_keys : list (string * string)
}.

Definition empty_corpus : corpus := {| all_jobs := []; seen_keys := [] |}.

(** [(job.get("source_site", ""), job.get("application_url", ""))] *)
Definition job_key (j : JobRecord) : string * string := (source_site j, application_url j).

Definition key_eqb (a b : string * string) : bool :=
  String.eqb (fst a) (fst b) && String.eqb (snd a) (snd b).

Definition key_in (k : string * string) (ks : list (string * string)) : bool :=
  existsb (key_eqb k) ks.

(** [add_job], the closure of [run_extraction]; [now] is the value of
    [datetime.utcnow().isoformat() + "Z"]. *)
Definition add_job (now : string) (job : JobRecord) (c : corpus) : option corpus :=
  let app_url := application_url job in
  if negb (String.eqb app_url "") && (str_in "/blogs/" app_url || str_in "/blog/" app_url)
  then Some c else
  let admitted :=
    match is_likely_job_posting app_url (job_title job) (source_url job) with
    | None => None
    | Some true => Some true
    | Some false =>
        match urlparse app_url with
        | None => None
        | Some purl => Some (negb (vendor_host (lower (netloc purl))))
        end
    end in
  match admitted with
  | None => None
  | Some false => Some c
  | Some true =>
      let key := job_key job in
      if key_in key (seen_keys c) then Some c
      else Some {| all_jobs := (all_jobs c ++ [set_extracted_at job now])%list;
                   seen_keys := (seen_keys c ++ [key])%list |}
  end.

(** The merge of step 3 of [run_extraction] into the stored [existing]. *)
Definition merge_into (existing job : JobRecord) : JobRecord :=
  let e1 :=
    if negb (String.eqb (job_description job) "")
       && (String.length (job_description existing) <? String.length (job_description job))
    then set_job_description existing (job_description job) else existing in
  match metadata job with
  | [] => e1
  | _ => set_metadata e1 (dict_update (metadata existing) (metadata job))
  end.

(** [for i, existing in enumerate(all_jobs): if key matches: merge; break] *)
Fixpoint merge_first (key : string * string) (job : JobRecord) (l : list JobRecord)
  : list JobRecord :=
  match l with
  | [] => []
  | e :: r => if key_eqb (job_key e) key then merge_into e job :: r
              else e :: merge_first key job r
  end.

(** Step 3 of [run_extraction] for a job returned by [extract_job_from_html]. *)
Definition enrich_job (now : string) (job : JobRecord) (c : corpus) : option corpus :=
  if negb (String.eqb (job_description job) "") || (match metadata job with [] => false | _ => true end)
  then
    let key := job_key job in
    if key_in key (seen_keys c)
    then Some {| all_jobs := merge_first key job (all_jobs c); seen_keys := seen_keys c |}
    else add_job now job c
  else Some c.

(** ** Feed fetcher ([fetch_rss_jobs]) *)

(** An [<item>] of the feed, its fields read with [_text]. *)
Record RssItem := {
  item_title : string;
  item_link : string;
  item_description : string;
  item_pub : string;
  item_guid : string
}.

(** The answer of [session.get(url)] for a feed URL: [None] when the call
    raises; otherwise the status and the parsed [<item>] list, [None] when
    [ET.fromstring] raises [ParseError]. *)
Definition feed_get := string -> option (nat * option (list RssItem)).

Definition feed_paths : list string :=
  ["/rss"; "/careers/rss"; "/jobs/rss"; "/feed"; "/careers/feed"; "/jobs/feed"].

(** The body of [for item in find_all(root, "item")]: [None] when it raises,
    [Some None] for [continue], [Some (Some job)] for [jobs.append(job)]. *)
Definition rss_item_job (sch nl url : string) (it : RssItem) : option (option JobRecord) :=
  let title := item_title it in
  let link0 := item_link it in
  let guid := item_guid it in
  let pub := item_pub it in
  if String.eqb title "" && String.eqb link0 "" then Some None else
  let link :=
    if String.eqb link0 "" && negb (String.eqb guid "")
       && (startswith guid "http" || startswith guid "//")
    then (if startswith guid "http" then guid else sch ++ ":" ++ guid)
    else link0 in
  if String.eqb link "" then Some None else
  match is_likely_job_posting link title url with
  | None => None
  | Some false => Some None
  | Some true =>
      Some (Some {| job_title := if String.eqb title "" then "Untitled" else title;
                    job_description := item_description it;
                    application_url := link;
                    metadata := [("date_posted", if String.eqb pub "" then None else Some pub);
                                 ("job_id", if String.eqb guid "" then None else Some guid);
                                 ("source_feed", Some url)];
                    source_site := nl;
                    source_url := url;
                    extracted_at := None |})
  end.

(** The item loop; the flag tells whether an exception left it early (the
    jobs appended before stay in [jobs]). *)
Fixpoint rss_items (sch nl url : string) (items : list RssItem) (jobs : list JobRecord)
  : list JobRecord * bool :=
  match items with
  | [] => (jobs, false)
  | it :: r =>
      match rss_item_job sch nl url it with
      | None => (jobs, true)
      | Some None => rss_items sch nl url r jobs
      | Some (Some j) => rss_items sch nl url r ((jobs ++ [j])%list)
      end
  end.

(** The loop over the feed paths.  [tried] lists the paths whose URL was
    requested.  The requested URL is [urljoin(origin, path)], which is
    [origin ++ path] for the http(s) origins of the input. *)
Fixpoint rss_loop (get : feed_get) (sch nl origin : string) (paths : list string)
    (jobs : list JobRecord) (tried : list string) : list JobRecord * list string :=
  match paths with
  | [] => (jobs, tried)
  | p :: ps =>
      let url := origin ++ p in
      let tried' := (tried ++ [p])%list in
      match get url with
      | Some (status, Some items) =>
          if status =? 200 then
            let '(jobs', raised) := rss_items sch nl url items jobs in
            if raised then rss_loop get sch nl origin ps jobs' tried'
            else match jobs' with
                 | [] => rss_loop get sch nl origin ps jobs' tried'
                 | _ => (jobs', tried')
                 end
          else rss_loop get sch nl origin ps jobs tried'
      | _ => rss_loop get sch nl origin ps jobs tried'
      end
  end.

(** [fetch_rss_jobs(session, base_url)]: the jobs and the paths tried;
    [None] when [urlparse(base_url)] raises. *)
Definition fetch_rss_jobs (get : feed_get) (base_url : string)
  : option (list JobRecord * list string) :=
  match urlparse base_url with
  | None => None
  | Some parsed =>
      let origin := scheme parsed ++ "://" ++ netloc parsed in
      Some (rss_loop get (scheme parsed) (netloc parsed) origin feed_paths [] [])
  end.

(** ** Page extractor ([extract_job_from_html]) *)

(** A node found by [soup.select_one]: its [html_to_clean_text], its
    [href] attribute and [str(el.get("class", []))]. *)
Record Elem := {
  el_text : string;
  el_href : option string;
  el_class : string
}.

(** The parsed page: [soup.select_one], [soup.title] with its [.string],
    and [soup.find("body")]. *)
Record Page := {
  select_one : string -> option Elem;
  doc_title : option (option string);
  body : option Elem
}.

(** [session.get(url)] for a page: [None] when it raises. *)
Definition page_get := string -> option (nat * Page).

(** [urljoin(url, href)], [None] when it raises. *)
Variable urljoin : string -> string -> option string.

Definition title_selectors : list string :=
  ["h1"; ".job-title"; ".position-title"; "[data-job-title]"; ".job-header h1"; ".page-title"].

Definition description_selectors : list string :=
  [".job-description"; ".job-description .content"; ".description"; ".job-details";
   "article"; ".job-content"; ".position-description"; "[data-job-description]";
   "main .content"; "main"; ".content"].

(** The double quote character, to spell the attribute selectors. *)
Definition dq : string := String (ascii_of_nat 34) EmptyString.

Definition apply_selectors : list string :=
  ["a[href*=" ++ dq ++ "apply" ++ dq ++ "]"; "a[href*=" ++ dq ++ "Apply" ++ dq ++ "]";
   "button a[href^=" ++ dq ++ "http" ++ dq ++ "]"; ".apply-button a";
   ".apply-btn a"; "a.btn-apply[href]"; "[data-apply-url]"].

Definition metadata_selectors : list string :=
  [".location"; ".job-location"; "[data-location]"; ".location-value"; ".posted-date";
   ".date-posted"].

(** Title: the first selector that finds a node decides, then [soup.title]. *)
Fixpoint first_selected (pg : Page) (sels : list string) : option Elem :=
  match sels with
  | [] => None
  | s :: r => match select_one pg s with Some el => Some el | None => first_selected pg r end
  end.

Definition extract_title (pg : Page) : string :=
  let t := match first_selected pg title_selectors with
           | Some el => el_text el
           | None => ""
           end in
  if String.eqb t "" then
    match doc_title pg with
    | Some s => strip (match s with Some x => x | None => "" end)
    | None => ""
    end
  else t.

(** Description loop: each node found overwrites [description]; the loop
    breaks at the first text longer than 100 characters. *)
Fixpoint description_loop (pg : Page) (sels : list string) (description : string) : string :=
  match sels with
  | [] => description
  | s :: r =>
      match select_one pg s with
      | Some el =>
          let d := el_text el in
          if 100 <? String.length d then d else description_loop pg r d
      | None => description_loop pg r description
      end
  end.

Definition extract_description (pg : Page) : string :=
  let d := description_loop pg description_selectors "" in
  if String.eqb d "" then
    match body pg with
    | Some b => take 15000 (el_text b)
    | None => ""
    end
  else d.

(** Apply link: the first node found with a non-empty [href]. *)
Fixpoint apply_href (pg : Page) (sels : list string) : option string :=
  match sels with
  | [] => None
  | s :: r =>
      match select_one pg s with
      | Some el =>
          match el_href el with
          | Some h => if String.eqb h "" then apply_href pg r else Some h
          | None => apply_href pg r
          end
      | None => apply_href pg r
      end
  end.

Fixpoint metadata_loop (pg : Page) (sels : list string) (m : dict) : dict :=
  match sels with
  | [] => m
  | s :: r =>
      match select_one pg s with
      | Some el =>
          let text := el_text el in
          if str_in "location" (lower s) || str_in "location" (el_class el)
          then metadata_loop pg r (dict_set m "location" (Some text))
          else if str_in "date" (lower s) || str_in "posted" (lower s)
          then metadata_loop pg r (dict_set m "date_posted" (Some text))
          else metadata_loop pg r m
      | None => metadata_loop pg r m
      end
  end.

(** [extract_job_from_html(session, url)]: [None] when it raises,
    [Some None] when it returns [None]. *)
Definition extract_job_from_html (get : page_get) (url : string) : option (option JobRecord) :=
  match get url with
  | None => Some None
  | Some (status, pg) =>
      if negb (status =? 200) then Some None else
      match urlparse url with
      | None => None
      | Some parsed =>
          let title := extract_title pg in
          let description := extract_description pg in
          let app :=
            match apply_href pg apply_selectors with
            | Some h => urljoin url h
            | None => Some url
            end in
          match app with
          | None => None
          | Some app_url =>
              let md := metadata_loop pg metadata_selectors [("source_page", Some url)] in
              if String.eqb title "" && String.eqb description "" then Some None
              else Some (Some {| job_title := if String.eqb title "" then "Untitled" else title;
                                 job_description := description;
                                 application_url := app_url;
                                 metadata := md;
                                 source_site := netloc parsed;
                                 source_url := url;
                                 extracted_at := None |})
          end
      end
  end.

(** ** Step 2 of [run_extraction]: one job-like URL *)

(** [extract_job_links_from_listing(soup, url, netloc)]; the cap does not
    depend on which links it returns. *)
Variable extract_job_links_from_listing : Page -> string -> string -> list (string * string).

(** [add_job] inside a [try ... except Exception: pass]. *)
Definition try_add_job (now : string) (job : JobRecord) (c : corpus) : corpus :=
  match add_job now job c with Some c' => c' | None => c end.

(** The detail loop; [fetched] lists the URLs given to
    [extract_job_from_html]. *)
Fixpoint expand_links (get : page_get) (now : string) (links : list (string * string))
    (c : corpus) (fetched : list string) : corpus * list string :=
  match links with
  | [] => (c, fetched)
  | (job_url, card_title) :: r =>
      let c' :=
        match extract_job_from_html get job_url with
        | Some (Some job) =>
            let job' := if String.eqb (job_title job) "" || String.eqb (job_title job) "Untitled"
                        then set_job_title job card_title else job in
            try_add_job now job' c
        | _ => c
        end in
      expand_links get now r c' ((fetched ++ [job_url])%list)
  end.

(** The cap of [job_links[:100]] *)
Definition per_listing_cap : nat := 100.

Definition single_page (get : page_get) (now : string) (url : string) (c : corpus) : corpus :=
  match extract_job_from_html get url with
  | Some (Some job) => try_add_job now job c
  | _ => c
  end.

(** One iteration of [for url in to_fetch]; an exception ends the iteration
    with the corpus as it is. *)
Definition process_page_url (get : page_get) (now : string) (url : string) (c : corpus)
  : corpus * list string :=
  match urlparse url with
  | None => (c, [])
  | Some parsed =>
      match is_listing_page url with
      | None => (c, [])
      | Some true =>
          match get url with
          | None => (c, [])
          | Some (status, pg) =>
              if negb (status =? 200) then (c, []) else
              match extract_job_links_from_listing pg url (netloc parsed) with
              | [] => (single_page get now url c, [url])
              | job_links => expand_links get now (firstn per_listing_cap job_links) c []
              end
          end
      | Some false => (single_page get now url c, [url])
      end
  end.

End Extractor.

(** ** Link loading ([load_links_from_file]) *)

Definition newline : ascii := ascii_of_nat 10.

(** Text-mode reading translates "\r\n" and "\r" to "\n". *)
Fixpoint univ_newlines (s : string) : string :=
  match s with
  | EmptyString => EmptyString
  | String c r =>
      if code c =? 13 then
        match r with
        | String d r' => if code d =? 10 then String newline (univ_newlines r')
                         else String newline (univ_newlines r)
        | EmptyString => String newline EmptyString
        end
      else String c (univ_newlines r)
  end.

(** The lines [for line in f] yields, without their "\n". *)
Definition file_lines (content : string) : list string :=
  let ls := split_on newline (univ_newlines content) in
  match rev ls with
  | EmptyString :: r => rev r
  | _ => ls
  end.

Fixpoint collect_urls (lines : list string) (urls : list string) : list string :=
  match lines with
  | [] => urls
  | l :: r =>
      let line := strip l in
      if negb (String.eqb line "") && negb (startswith line "#")
         && (startswith line "http://" || startswith line "https://")
      then collect_urls r ((urls ++ [line])%list)
      else collect_urls r urls
  end.

(** [load_links_from_file(path)]: the file's text, [None] when
    [path.exists()] is false. *)
Definition load_links_from_file (file : option string) : list string :=
  match file with
  | None => []
  | Some content => collect_urls (file_lines content) []
  end.

(** [load_links_from_files(paths)]: [seen] and [merged] after each URL. *)
Fixpoint merge_new_links (urls : list string) (seen merged : list string)
  : list string * list string :=
  match urls with
  | [] => (seen, merged)
  | url :: r =>
      if existsb (String.eqb url) seen then merge_new_links r seen merged
      else merge_new_links r ((seen ++ [url])%list) ((merged ++ [url])%list)
  end.

Fixpoint load_files_loop (files : list (option string)) (seen merged : list string)
  : list string :=
  match files with
  | [] => merged
  | f :: fs =>
      let '(seen', merged') := merge_new_links (load_links_from_file f) seen merged in
      load_files_loop fs seen' merged'
  end.

Definition load_links_from_files (files : list (option string)) : list string :=
  load_files_loop files [] [].

(** ** [html_to_clean_text] *)

(** [n] newline characters *)
Fixpoint newlines (n : nat) : string :=
  match n with
  | 0 => EmptyString
  | S k => String newline (newlines k)
  end.

(** What [re.sub(r"\n{3,}", "\n\n", s)] writes for a maximal run of [n]
    newlines. *)
Definition newline_run (n : nat) : string := if 3 <=? n then newlines 2 else newlines n.

(** [re.sub(r"\n{3,}", "\n\n", s)]; [n] newlines are read and not yet
    written. *)
Fixpoint collapse_newlines (n : nat) (s : string) : string :=
  match s with
  | EmptyString => newline_run n
  | String c r =>
      if Ascii.eqb c newline then collapse_newlines (S n) r
      else newline_run n ++ String c (collapse_newlines 0 r)
  end.

(** [html_to_clean_text(soup_tag)], given the text
    [soup_tag.get_text(separator="\n", strip=True)] ([None] when the tag is
    [None]). *)
Definition html_to_clean_text (text : option string) : string :=
  match text with
  | None => ""
  | Some t => strip (collapse_newlines 0 t)
  end.

(** ** Listing links ([extract_job_links_from_listing]) *)

(** [s.count(d)] for a one-character [d] *)
Fixpoint count_char (d : ascii) (s : string) : nat :=
  match s with
  | EmptyString => 0
  | String c r => (if Ascii.eqb c d then 1 else 0) + count_char d r
  end.

Fixpoint all_digits (s : string) : bool :=
  match s with
  | EmptyString => true
  | String c r => is_digit c && all_digits r
  end.

(** [s.isdigit()] *)
Definition isdigit (s : string) : bool := negb (String.eqb s "") && all_digits s.

(** [s.split(sep)[0]] for a non-empty [sep] *)
Fixpoint split_head (sep s : string) : string :=
  if prefix sep s then ""
  else match s with
       | EmptyString => EmptyString
       | String c r => String c (split_head sep r)
       end.

Fixpoint lstrip_slash (s : string) : string :=
  match s with
  | EmptyString => EmptyString
  | String c r => if Ascii.eqb c "/" then lstrip_slash r else s
  end.

(** [s.strip("/")] *)
Definition strip_slash (s : string) : string := rstrip_slash (lstrip_slash s).

(** [if len(title) > limit: title = title[:limit] + "..."] *)
Definition cut_title (limit : nat) (title : string) : string :=
  if limit <? String.length title then take limit title ++ "..." else title.

(** An [<a href>]: its [href] and its [get_text(separator="\n", strip=True)]. *)
Record Anchor := {
  a_href : string;
  a_text : string
}.

(** A node of the fallback selection: its text, and the links
    [block.select_one("a[href*='JobDetail'], a[href*='SearchJobs']")] and
    [block.select_one("a[href]")]. *)
Record Block := {
  b_text : string;
  b_detail_link : option Anchor;
  b_any_link : option Anchor
}.

(** A listing page: [soup.select('a[href]')] and the fallback selection, in
    document order. *)
Record Listing := {
  anchors : list Anchor;
  blocks : list Block
}.

(** The [is_job_link] expression of the first pass. *)
Definition is_job_link (pth query : string) : bool :=
  str_in "jobdetail" pth || str_in "jobid" query
  || (str_in "searchjobs" pth && (3 <=? count_char "/" pth))
  || (str_in "careers" pth && existsb isdigit (split_on "/" pth)
      && (4 <=? length (split_on "/" pth))).

(** The second test of the first pass: a same-site path one level or more
    below the listing's own path; [base_path0] is [parsed_base.path]. *)
Definition detail_below_base (base_path0 pth : string) : bool :=
  let base_path := rstrip_slash base_path0 in
  let head := split_head "searchjobs" base_path in
  if negb (String.eqb pth base_path)
     && startswith pth (lower (if String.eqb head "" then base_path else head))
  then
    let extra := strip_slash (drop (String.length base_path) pth) in
    negb (String.eqb extra "") && (isdigit extra || str_in "/" extra)
  else false.

Section ListingLinks.

Variable check_bracketed_netloc : string -> bool.

(** [urljoin(base, href)], [None] when it raises. *)
Variable urljoin : string -> string -> option string.

(** One anchor of the first pass over [(seen_urls, results)]; [None] when it
    raises. *)
Definition anchor_step (base_url nl : string) (pb : ParseResult)
    (acc : list string * list (string * string)) (a : Anchor)
  : option (list string * list (string * string)) :=
  let '(seen, results) := acc in
  let href := a_href a in
  if String.eqb (strip href) "" then Some acc else
  match urljoin base_url href with
  | None => None
  | Some full_url =>
      match urlparse check_bracketed_netloc full_url with
      | None => Some acc
      | Some p =>
          if negb (String.eqb (lower (netloc p)) (lower nl)) then Some acc else
          let pth := lower (path p) in
          let query := lower (query p) in
          if String.eqb full_url base_url
             || String.eqb (rstrip_slash full_url) (rstrip_slash base_url) then Some acc else
          if str_in "searchjobs" pth && negb (str_in "/jobdetail" pth)
             && negb (str_in "jobid" query) && endswith (rstrip_slash pth) "searchjobs"
          then Some acc else
          if negb (is_job_link pth query || detail_below_base (path pb) pth) then Some acc else
          if existsb (String.eqb full_url) seen then Some acc else
          let t := strip (html_to_clean_text (Some (a_text a))) in
          let title := cut_title 300 (if String.eqb t "" then "Job" else t) in
          Some ((seen ++ [full_url])%list, (results ++ [(full_url, title)])%list)
      end
  end.

Fixpoint anchors_loop (base_url nl : string) (pb : ParseResult) (l : list Anchor)
    (acc : list string * list (string * string))
  : option (list string * list (string * string)) :=
  match l with
  | [] => Some acc
  | a :: r =>
      match anchor_step base_url nl pb acc a with
      | None => None
      | Some acc' => anchors_loop base_url nl pb r acc'
      end
  end.

(** One node of the fallback pass. *)
Definition block_step (base_url nl : string) (acc : list string * list (string * string))
    (b : Block) : option (list string * list (string * string)) :=
  let '(seen, results) := acc in
  let link := match b_detail_link b with Some l => Some l | None => b_any_link b end in
  match link with
  | None => Some acc
  | Some l =>
      let href := a_href l in
      if String.eqb href "" then Some acc else
      match urljoin base_url href with
      | None => None
      | Some full_url =>
          match urlparse check_bracketed_netloc full_url with
          | None => None
          | Some p =>
              if negb (String.eqb (lower (netloc p)) (lower nl)) then Some acc else
              if existsb (String.eqb full_url) seen then Some acc else
              let pth := lower (path p) in
              if str_in "jobdetail" pth
                 || (str_in "searchjobs" pth && (4 <=? length (split_on "/" pth)))
              then
                let t1 := strip (html_to_clean_text (Some (b_text b))) in
                let t2 := strip (html_to_clean_text (Some (a_text l))) in
                let title := if negb (String.eqb t1 "") then t1
                             else if negb (String.eqb t2 "") then t2 else "Job" in
                Some ((seen ++ [full_url])%list, (results ++ [(full_url, cut_title 400 title)])%list)
              else Some acc
          end
      end
  end.

Fixpoint blocks_loop (base_url nl : string) (l : list Block)
    (acc : list string * list (string * string))
  : option (list string * list (string * string)) :=
  match l with
  | [] => Some acc
  | b :: r =>
      match block_step base_url nl acc b with
      | None => None
      | Some acc' => blocks_loop base_url nl r acc'
      end
  end.

(** [extract_job_links_from_listing(soup, base_url, netloc)]; [None] when
    it raises. *)
Definition extract_job_links_from_listing (page : Listing) (base_url nl : string)
  : option (list (string * string)) :=
  match urlparse check_bracketed_netloc base_url with
  | None => None
  | Some pb =>
      match anchors_loop base_url nl pb (anchors page) ([], []) with
      | None => None
      | Some (seen, results) =>
          match results with
          | [] => option_map snd (blocks_loop base_url nl (blocks page) (seen, results))
          | _ => Some results
          end
      end
  end.

End ListingLinks.

(** ** The pipeline ([run_extraction]) *)

(** [l[:n]] for a Python [int] [n] *)
Definition py_prefix {A : Type} (n : Z) (l : list A) : list A :=
  if (0 <=? n)%Z then firstn (Z.to_nat n) l
  else firstn (length l - Z.to_nat (- n)) l.

(** The truth value of a Python list *)
Definition nonempty {A : Type} (l : list A) : bool :=
  match l with [] => false | _ => true end.

(** [[u for u in l if f(u)]] for an [f] that may raise. *)
Fixpoint filter_opt (f : string -> option bool) (l : list string) : option (list string) :=
  match l with
  | [] => Some []
  | x :: r =>
      match f x with
      | None => None
      | Some b =>
          match filter_opt f r with
          | None => None
          | Some r' => Some (if b then x :: r' else r')
          end
      end
  end.

Section Pipeline.

Variable check_bracketed_netloc : string -> bool.
Variable urljoin : string -> string -> option string.
Variable links_of : Page -> string -> string -> list (string * string).

(** [for j in jobs: add_job(j)] inside the hub's [try]: an exception ends
    the loop. *)
Fixpoint add_all (now : string) (js : list JobRecord) (c : corpus) : corpus :=
  match js with
  | [] => c
  | j :: r =>
      match add_job check_bracketed_netloc now j c with
      | None => c
      | Some c' => add_all now r c'
      end
  end.

(** Step 1: [for url in hubs]. *)
Fixpoint rss_step (fget : feed_get) (now : string) (hubs : list string) (c : corpus) : corpus :=
  match hubs with
  | [] => c
  | url :: r =>
      let c' := match fetch_rss_jobs check_bracketed_netloc fget url with
                | None => c
                | Some (jobs, _) => add_all now jobs c
                end in
      rss_step fget now r c'
  end.

(** Step 2: [for url in to_fetch]. *)
Fixpoint pages_step (get : page_get) (now : string) (urls : list string) (c : corpus) : corpus :=
  match urls with
  | [] => c
  | url :: r =>
      pages_step get now r
        (fst (process_page_url check_bracketed_netloc urljoin links_of get now url c))
  end.

(** [to_enrich] of step 3 *)
Definition enrich_urls (max_job_pages : Z) (job_page_urls : list string) (c : corpus)
  : list string :=
  let rss_job_urls := filter (fun u => negb (String.eqb u "")) (map application_url (all_jobs c)) in
  py_prefix max_job_pages
    (filter (fun u => negb (existsb (String.eqb u) job_page_urls)) rss_job_urls).

(** Step 3: [for url in to_enrich]. *)
Fixpoint enrich_step (get : page_get) (now : string) (urls : list string) (c : corpus) : corpus :=
  match urls with
  | [] => c
  | url :: r =>
      let c' := match extract_job_from_html check_bracketed_netloc urljoin get url with
                | Some (Some job) =>
                    match enrich_job check_bracketed_netloc now job c with
                    | Some c'' => c''
                    | None => c
                    end
                | _ => c
                end in
      enrich_step get now r c'
  end.

(** [run_extraction] on the loaded [links]: the list it returns (and
    writes); [None] when it raises.  [now] stands for the timestamps. *)
Definition run_extraction (fget : feed_get) (get : page_get) (now : string)
    (links : list string) (fetch_rss fetch_job_pages : bool) (max_job_pages : Z)
  : option (list JobRecord) :=
  match links with
  | [] => Some []
  | _ =>
      match filter_opt (is_likely_career_hub check_bracketed_netloc) links with
      | None => None
      | Some hubs =>
          let c1 := if fetch_rss && nonempty hubs
                    then rss_step fget now hubs empty_corpus else empty_corpus in
          match filter_opt (is_likely_job_page check_bracketed_netloc) links with
          | None => None
          | Some job_page_urls =>
              let c2 := if fetch_job_pages && nonempty job_page_urls
                        then pages_step get now (py_prefix max_job_pages job_page_urls) c1
                        else c1 in
              let c3 := if fetch_rss && nonempty hubs && fetch_job_pages
                        then enrich_step get now (enrich_urls max_job_pages job_page_urls c2) c2
                        else c2 in
              Some (all_jobs c3)
          end
      end
  end.

End Pipeline.

(** ** Decision tables *)

(** The first rule whose condition holds decides; [default] otherwise. *)
Fixpoint first_match (rules : list (bool * bool)) (default : bool) : bool :=
  match rules with
  | [] => default
  | (cond, verdict) :: r => if cond then verdict else first_match r default
  end.

(** A tenant career subdomain: [".avature.net" in netloc] and not the
    vendor's own host. *)
Definition tenant_host (nl : string) : bool :=
  str_in ".avature.net" nl && negb (vendor_host nl).

(** The admission filter of a non-empty URL as an ordered rule table over
    the lowercased netloc, path and title. *)
Definition posting_rule_table (nl pth title : string) : list (bool * bool) :=
  [ (vendor_host nl && (str_in "/blogs/" pth || str_in "/blog/" pth
                        || str_in "avatureupfront" pth || str_in "hr-trends" pth), false);
    (vendor_host nl && negb (str_in "/careers/" pth || str_in "/jobs/" pth
                             || str_in "searchjobs" pth), false);
    (existsb (fun pattern => str_in pattern pth || str_in pattern title)
             RSS_NON_JOB_PATH_PATTERNS, false);
    (tenant_host nl && (str_in "careers" pth || str_in "jobs" pth), true);
    (str_in "/careers" pth || str_in "/jobs" pth || str_in "searchjobs" pth, true) ].

(** The text of the last node the selectors find ([acc] when none does). *)
Fixpoint last_found_text (pg : Page) (sels : list string) (acc : string) : string :=
  match sels with
  | [] => acc
  | s :: r =>
      match select_one pg s with
      | Some el => last_found_text pg r (el_text el)
      | None => last_found_text pg r acc
      end
  end.



(** No run of more than two newlines, [run] newlines having just been
    read. *)
Fixpoint short_runs (run : nat) (s : string) : bool :=
  match s with
  | EmptyString => true
  | String c r =>
      if Ascii.eqb c newline then (run <? 2) && short_runs (S run) r else short_runs 0 r
  end.

(** A link of [extract_job_links_from_listing]: on the site [nl], with a
    non-empty title of at most [limit] characters. *)
Definition link_ok (check_bracketed_netloc : string -> bool) (nl : string) (limit : nat)
    (ut : string * string) : Prop :=
  (exists p, urlparse check_bracketed_netloc (fst ut) = Some p /\ lower (netloc p) = lower nl)
  /\ snd ut <> "" /\ String.length (snd ut) <= limit.

(** A job made by [fetch_rss_jobs] from the feed [url] of the site [nl]. *)
Definition rss_job_ok (check_bracketed_netloc : string -> bool) (nl url : string)
    (j : JobRecord) : Prop :=
  source_site j = nl /\ source_url j = url /\ application_url j <> ""
  /\ extracted_at j = None
  /\ (exists t, job_title j = (if String.eqb t "" then "Untitled" else t)
                /\ is_likely_job_posting check_bracketed_netloc (application_url j) t url = Some true)
  /\ (exists pub guid, metadata j = [("date_posted", pub); ("job_id", guid); ("source_feed", Some url)]).

(** The corpus invariant: [seen_keys] holds the keys of [all_jobs], in
    order, and no key twice. *)
Definition corpus_ok (c : corpus) : Prop :=
  seen_keys c = map job_key (all_jobs c) /\ NoDup (seen_keys c).

(** A job as [run_extraction] stores it: stamped with [now], and with no
    blog path in its [application_url]. *)
Definition stored_ok (now : string) (j : JobRecord) : Prop :=
  extracted_at j = Some now
  /\ str_in "/blogs/" (application_url j) = false /\ str_in "/blog/" (application_url j) = false.

Definition pipeline_inv (now : string) (c : corpus) : Prop :=
  corpus_ok c /\ Forall (stored_ok now) (all_jobs c).

(** ** Sample data

    A feed and pages of a tenant site, used by the instances below. *)

Definition ex_now : string := "2024-01-01T00:00:00Z".

Definition ex_base : string := "https://acme.avature.net/careers".

Definition ex_detail_url : string := "https://acme.avature.net/careers/JobDetail/123".

Definition ex_listing_url : string := "https://acme.avature.net/careers/SearchJobs".

Definition ex_item : RssItem :=
  {| item_title := "Engineer"; item_link := ex_detail_url;
     item_description := "Build things."; item_pub := ""; item_guid := "" |}.

(** /rss answers 200 with a well-formed feed holding no item; /careers/rss
    holds one job. *)
Definition ex_feed_get : feed_get :=
  fun url =>
    if String.eqb url "https://acme.avature.net/rss" then Some (200, Some [])
    else if String.eqb url "https://acme.avature.net/careers/rss" then Some (200, Some [ex_item])
    else None.

(** The job [fetch_rss_jobs] makes of [ex_item]. *)
Definition ex_feed_job : JobRecord :=
  {| job_title := "Engineer"; job_description := "Build things.";
     application_url := ex_detail_url;
     metadata := [("date_posted", None); ("job_id", None);
                  ("source_feed", Some "https://acme.avature.net/careers/rss")];
     source_site := "acme.avature.net";
     source_url := "https://acme.avature.net/careers/rss";
     extracted_at := None |}.

(** The same posting seen again on its page, with a location. *)
Definition ex_page_obs : JobRecord :=
  {| job_title := "Engineer"; job_description := "Build things.";
     application_url := ex_detail_url;
     metadata := [("location", Some "Berlin")];
     source_site := "acme.avature.net";
     source_url := ex_detail_url;
     extracted_at := None |}.

Definition ex_corpus : corpus :=
  {| all_jobs := [set_extracted_at ex_feed_job ex_now];
     seen_keys := [job_key ex_feed_job] |}.

(** An item with a link but neither title nor description. *)
Definition ex_shell_item : RssItem :=
  {| item_title := ""; item_link := "https://acme.avature.net/careers/JobDetail/1";
     item_description := ""; item_pub := ""; item_guid := "" |}.

Definition ex_shell_feed_get : feed_get :=
  fun url =>
    if String.eqb url "https://acme.avature.net/rss" then Some (200, Some [ex_shell_item])
    else None.

Definition ex_elem (t : string) : Elem := {| el_text := t; el_href := None; el_class := "" |}.

Definition ex_body_text : string :=
  "Acme is hiring engineers in Berlin. " ++ "Acme is hiring engineers in Berlin. "
  ++ "Acme is hiring engineers in Berlin. " ++ "Acme is hiring engineers in Berlin.".

(** A page whose only description container is short, with a long body. *)
Definition ex_short_page : Page :=
  {| select_one := fun sel => if String.eqb sel ".job-description" then Some (ex_elem "Short.")
                              else None;
     doc_title := None;
     body := Some (ex_elem ex_body_text) |}.

(** A page with a heading and nothing else. *)
Definition ex_titled_page : Page :=
  {| select_one := fun sel => if String.eqb sel "h1" then Some (ex_elem "Engineer") else None;
     doc_title := None;
     body := None |}.

(** The record [extract_job_from_html] makes of [ex_titled_page]. *)
Definition ex_page_job : JobRecord :=
  {| job_title := "Engineer"; job_description := "";
     application_url := ex_detail_url;
     metadata := [("source_page", Some ex_detail_url)];
     source_site := "acme.avature.net";
     source_url := ex_detail_url;
     extracted_at := None |}.

(** The job [fetch_rss_jobs] makes of [ex_shell_item]. *)
Definition ex_shell_job : JobRecord :=
  {| job_title := "Untitled"; job_description := "";
     application_url := "https://acme.avature.net/careers/JobDetail/1";
     metadata := [("date_posted", None); ("job_id", None);
                  ("source_feed", Some "https://acme.avature.net/rss")];
     source_site := "acme.avature.net";
     source_url := "https://acme.avature.net/rss";
     extracted_at := None |}.

(** [urlparse] of a URL of [host] with path [pth] and query [q]. *)
Definition ex_parsed (host pth q : string) : ParseResult :=
  {| scheme := "https"; netloc := host; path := pth; params := ""; query := q; fragment := "" |}.

Definition ex_urljoin (base href : string) : option string := Some href.

Definition ex_page_get : page_get := fun _ => Some (200, ex_titled_page).

(** A listing page with 500 detail links. *)
Definition ex_links : list (string * string) := repeat (ex_detail_url, "Engineer") 500.

(** A listing page of [acme.avature.net]: a detail link twice, a link to
    another site, the listing itself, a numbered search link and a query
    link. *)
Definition ex_listing : Listing :=
  {| anchors := [
       {| a_href := "https://acme.avature.net/careers/JobDetail/Engineer/1"; a_text := "Engineer" |};
       {| a_href := "https://acme.avature.net/careers/JobDetail/Engineer/1"; a_text := "dup" |};
       {| a_href := "https://other.net/careers/JobDetail/2"; a_text := "x" |};
       {| a_href := "https://acme.avature.net/careers/SearchJobs/"; a_text := "self" |};
       {| a_href := "https://acme.avature.net/careers/SearchJobs/77"; a_text := "" |};
       {| a_href := "https://acme.avature.net/careers/SearchJobs?jobId=5"; a_text := "Q" |} ];
     blocks := [] |}.

Definition ex_listing_base : string := "https://acme.avature.net/careers/SearchJobs".

(** The links found on [ex_listing]. *)
Definition ex_listing_links : list (string * string) :=
  [("https://acme.avature.net/careers/JobDetail/Engineer/1", "Engineer");
   ("https://acme.avature.net/careers/SearchJobs/77", "Job");
   ("https://acme.avature.net/careers/SearchJobs?jobId=5", "Q")].

(** A job node of the fallback selection. *)
Definition ex_block : Block :=
  {| b_text := "Other";
     b_detail_link := Some {| a_href := "https://acme.avature.net/careers/JobDetail/9"; a_text := "" |};
     b_any_link := None |}.

(** The feed job of [ex_base] once stored and enriched from its page. *)
Definition ex_enriched_job : JobRecord :=
  {| job_title := "Engineer"; job_description := "Build things.";
     application_url := "https://acme.avature.net/careers/JobDetail/123";
     metadata := [("date_posted", None); ("job_id", None);
                  ("source_feed", Some "https://acme.avature.net/careers/rss");
                  ("source_page", Some "https://acme.avature.net/careers/JobDetail/123")];
     source_site := "acme.avature.net";
     source_url := "https://acme.avature.net/careers/rss";
     extracted_at := Some ex_now |}.

(** * Properties *)

(** ** String lemmas *)

Lemma prefix_spec (p s : string) : prefix p s = true <-> exists y, s = p ++ y.
Proof.
  revert s; induction p as [|a p IH]; intros s; split.
  - intros _; exists s; reflexivity.
  - intros _; destruct s; reflexivity.
  - destruct s as [|b s]; simpl; [discriminate|].
    destruct (ascii_dec a b) as [->|]; [|discriminate].
    intros H; apply IH in H as [y ->]; exists y; reflexivity.
  - intros [y ->]; simpl.
    destruct (ascii_dec a a) as [_|n]; [|congruence].
    apply IH; exists y; reflexivity.
Qed.

Lemma str_in_spec (sub s : string) :
  str_in sub s = true <-> exists x y, s = x ++ sub ++ y.
Proof.
  induction s as [|c s IH]; cbn [str_in]; split.
  - rewrite orb_false_r; intros H; apply prefix_spec in H as [y ->].
    exists "", y; reflexivity.
  - intros [x [y H]]; rewrite orb_false_r; apply prefix_spec.
    destruct x; simpl in H; [exists y; exact H | discriminate].
  - intros H; apply orb_true_iff in H as [H|H].
    + apply prefix_spec in H as [y Hy]; exists "", y; exact Hy.
    + apply IH in H as [x [y ->]]; exists (String c x), y; reflexivity.
  - intros [x [y H]]; apply orb_true_iff.
    destruct x as [|d x]; simpl in H.
    + left; apply prefix_spec; exists y; exact H.
    + right; injection H as -> H; apply IH; exists x, y; exact H.
Qed.

Lemma append_assoc_str (a b c : string) : (a ++ b) ++ c = a ++ b ++ c.
Proof. induction a; simpl; congruence. Qed.

(** A text holding [a ++ b ++ c] holds [b]. *)
Lemma str_in_middle (a b c s : string) :
  str_in (a ++ b ++ c) s = true -> str_in b s = true.
Proof.
  intros H; apply str_in_spec in H as [x [y ->]]; apply str_in_spec.
  exists (x ++ a), (c ++ y).
  rewrite !append_assoc_str; reflexivity.
Qed.

Lemma endswith_spec (s suf : string) : endswith s suf = true <-> exists x, s = x ++ suf.
Proof.
  induction s as [|c s IH]; cbn [endswith]; split.
  - rewrite orb_false_r; intros H; apply String.eqb_eq in H as <-; exists ""; reflexivity.
  - intros [x H]; destruct x; simpl in H; [subst; reflexivity | discriminate].
  - intros H; apply orb_true_iff in H as [H|H].
    + apply String.eqb_eq in H as <-; exists ""; reflexivity.
    + apply IH in H as [x ->]; exists (String c x); reflexivity.
  - intros [x H]; apply orb_true_iff; destruct x as [|d x]; simpl in H.
    + left; apply String.eqb_eq; exact H.
    + right; injection H as -> H; apply IH; exists x; exact H.
Qed.

Lemma endswith_str_in (s suf : string) : endswith s suf = true -> str_in suf s = true.
Proof.
  intros H; apply endswith_spec in H as [x ->]; apply str_in_spec.
  exists x, ""; f_equal.
  induction suf; simpl; congruence.
Qed.

(** Closes a goal with a hypothesis [true = true -> false = true]. *)
Ltac bool_contra :=
  exfalso;
  match goal with H : true = true -> false = true |- _ => discriminate (H eq_refl) end.

(** ** Admission filter *)

(** C2 (amended): [is_likely_job_posting] rejects the empty URL and otherwise
    decides by the first matching rule of [posting_rule_table]: the vendor
    host's blog/marketing paths and its paths with no job marker are
    rejected, then any path or title holding one of
    [RSS_NON_JOB_PATH_PATTERNS] is rejected whatever the host, then a
    tenant subdomain with "careers" or "jobs" in its path is accepted, then
    any path with "/careers", "/jobs" or "searchjobs" is accepted, and
    everything else is rejected.  The spec's three instances hold. *)
Theorem is_likely_job_posting_rule_table (chk : string -> bool) (u t f : string) :
  is_likely_job_posting chk u t f =
    (if String.eqb u "" then Some false
     else option_map (fun p => first_match (posting_rule_table (lower (netloc p))
                                              (lower (path p)) (lower t)) false)
                     (urlparse chk u))
  /\ is_likely_job_posting chk "https://acme.avature.net/careers/JobDetail/123" "Engineer" f
     = Some true
  /\ is_likely_job_posting chk "https://www.avature.net/blogs/hr-trends" "HR Trends" f
     = Some false
  /\ is_likely_job_posting chk "" "Engineer" f = Some false.
Proof.
  split; [|split; [|split]]; [|reflexivity..].
  unfold is_likely_job_posting.
  destruct (String.eqb u "") eqn:E; [reflexivity|].
  destruct (urlparse chk u) as [p|]; [|reflexivity].
  cbn [option_map]; f_equal.
  unfold posting_rule_table, tenant_host; cbn [first_match].
  set (pth := lower (path p)); set (nl := lower (netloc p)); set (ti := lower t).
  pose proof (str_in_middle "/" "careers" "" pth) as I1.
  pose proof (str_in_middle "/" "jobs" "" pth) as I2.
  pose proof (str_in_middle "search" "jobs" "" pth) as I3.
  pose proof (str_in_middle "" "/careers" "/" pth) as I4.
  pose proof (str_in_middle "" "/jobs" "/" pth) as I5.
  pose proof (endswith_str_in pth "/careers") as I6.
  pose proof (endswith_str_in pth "/jobs") as I7.
  cbn [String.append] in I1, I2, I3, I4, I5.
  revert I1 I2 I3 I4 I5 I6 I7.
  generalize (existsb (fun pattern => str_in pattern pth || str_in pattern ti)
                      RSS_NON_JOB_PATH_PATTERNS) as pat.
  generalize (endswith pth "/careers") (endswith pth "/jobs")
             (str_in "/careers/" pth) (str_in "/jobs/" pth)
             (str_in "/careers" pth) (str_in "/jobs" pth) (str_in "searchjobs" pth)
             (str_in "careers" pth) (str_in "jobs" pth)
             (str_in "/blogs/" pth) (str_in "/blog/" pth)
             (str_in "avatureupfront" pth) (str_in "hr-trends" pth)
             (str_in ".avature.net" nl) (vendor_host nl).
  intros vend av hr au bl bs jb cr sj jo ca jsl csl ej ec pat I1 I2 I3 I4 I5 I6 I7.
  destruct vend, pat; cbn [andb orb negb]; try reflexivity;
  repeat (match goal with b : bool |- _ => destruct b end;
          cbn [andb orb negb]; try reflexivity);
  bool_contra.
Qed.

(** ** URL role classifiers *)

Lemma lower_char_slash (c : ascii) : lower_char c = "/"%char -> c = "/"%char.
Proof.
  unfold lower_char, is_upper, code.
  destruct ((65 <=? nat_of_ascii c) && (nat_of_ascii c <=? 90)) eqn:U; [|auto].
  intros H; apply (f_equal nat_of_ascii) in H.
  apply andb_true_iff in U as [U1 U2]; apply Nat.leb_le in U1, U2.
  rewrite nat_ascii_embedding in H by lia.
  assert (E : nat_of_ascii "/"%char = 47) by reflexivity; rewrite E in H; lia.
Qed.

Lemma rstrip_slash_not_slash (s : string) : rstrip_slash s <> "/".
Proof.
  induction s as [|c r IH]; simpl; [discriminate|].
  destruct (String.eqb (rstrip_slash r) "") eqn:E;
  destruct (Ascii.eqb c "/") eqn:C; simpl; try discriminate;
  intros H; injection H as -> H2;
  first [ rewrite H2 in E; discriminate | exact (IH H2) ].
Qed.

Lemma norm_path_not_slash (p : ParseResult) : norm_path p <> "/".
Proof.
  unfold norm_path; generalize (rstrip_slash_not_slash (path p)).
  generalize (rstrip_slash (path p)) as s; intros s Hs H.
  destruct s as [|c [|d r]]; simpl in H; try discriminate.
  injection H as H; apply lower_char_slash in H; subst; exact (Hs eq_refl).
Qed.

(** C5 (amended): whenever [urlparse] accepts the URL, the hub classifier
    answers, and it answers [true] exactly when the lowercased path with its
    trailing slashes removed is "" (so also for "/"), "/careers" or
    "/jobs", or holds "/careers/" or "/jobs/" and has at most two
    non-empty segments; "/careers/SearchJobs" is therefore a hub. *)
Theorem is_likely_career_hub_iff (chk : string -> bool) (u : string) (p : ParseResult) :
  urlparse chk u = Some p ->
  (exists b, is_likely_career_hub chk u = Some b)
  /\ (is_likely_career_hub chk u = Some true <->
      (norm_path p = "" \/ norm_path p = "/careers" \/ norm_path p = "/jobs"
       \/ ((str_in "/careers/" (norm_path p) = true \/ str_in "/jobs/" (norm_path p) = true)
           /\ length (segments (norm_path p)) <= 2)))
  /\ is_likely_career_hub chk "https://acme.avature.net/careers/SearchJobs" = Some true.
Proof.
  intros H; unfold is_likely_career_hub; rewrite H; cbv zeta.
  split; [eexists; reflexivity|]; split; [|reflexivity].
  pose proof (norm_path_not_slash p) as NS.
  revert NS; generalize (norm_path p) as np; intros np NS.
  cbn [existsb]; rewrite orb_false_r.
  split.
  - intros Hs; injection Hs as Hs.
    destruct (String.eqb_spec np "") as [->|N0]; [left; reflexivity|].
    destruct (String.eqb_spec np "/") as [->|N1]; [contradiction|].
    destruct (String.eqb_spec np "/careers") as [->|N2]; [right; left; reflexivity|].
    destruct (String.eqb_spec np "/jobs") as [->|N3]; [right; right; left; reflexivity|].
    cbn [orb] in Hs; right; right; right.
    destruct (str_in "/careers/" np || str_in "/jobs/" np) eqn:M; [|discriminate].
    apply orb_true_iff in M; split; [exact M|apply Nat.leb_le; exact Hs].
  - intros [->|[->|[->|[M L]]]]; [reflexivity..|].
    destruct (String.eqb_spec np "") as [->|N0]; [reflexivity|].
    destruct (String.eqb_spec np "/") as [->|N1]; [contradiction|].
    destruct (String.eqb_spec np "/careers") as [->|N2]; [reflexivity|].
    destruct (String.eqb_spec np "/jobs") as [->|N3]; [reflexivity|].
    cbn [orb]; apply Nat.leb_le in L; rewrite L.
    destruct M as [M|M]; rewrite M; [reflexivity|].
    rewrite orb_true_r; reflexivity.
Qed.



(** ** Link loading *)

Lemma http_line_cond (l : string) :
  negb (String.eqb l "") && negb (startswith l "#")
  && (startswith l "http://" || startswith l "https://")
  = (startswith l "http://" || startswith l "https://").
Proof.
  unfold startswith.
  destruct (prefix "http://" l) eqn:H1.
  { apply prefix_spec in H1 as [y ->]; reflexivity. }
  destruct (prefix "https://" l) eqn:H2.
  { apply prefix_spec in H2 as [y ->]; reflexivity. }
  rewrite andb_false_r; reflexivity.
Qed.

Lemma collect_urls_filter (lines acc : list string) :
  collect_urls lines acc =
  (acc ++ filter (fun l => startswith l "http://" || startswith l "https://")
                 (map strip lines))%list.
Proof.
  revert acc; induction lines as [|l r IH]; intros acc; simpl.
  - rewrite app_nil_r; reflexivity.
  - rewrite http_line_cond.
    destruct (startswith (strip l) "http://" || startswith (strip l) "https://");
    rewrite IH; [rewrite <- app_assoc|]; reflexivity.
Qed.

(** C10: [load_links_from_file] returns exactly the stripped lines that
    start with "http://" or "https://", in file order; every other line is
    dropped, and a file that does not exist gives the empty list. *)
Theorem load_links_from_file_http_lines (file : option string) :
  load_links_from_file file =
  match file with
  | None => []
  | Some content =>
      filter (fun l => startswith l "http://" || startswith l "https://")
             (map strip (file_lines content))
  end.
Proof.
  destruct file as [content|]; [|reflexivity].
  unfold load_links_from_file; rewrite collect_urls_filter; reflexivity.
Qed.

(** ** Listing expansion *)

Lemma expand_links_fetched chk uj get now links c fetched :
  snd (expand_links chk uj get now links c fetched) = (fetched ++ map fst links)%list.
Proof.
  revert c fetched; induction links as [|[ju ct] r IH]; intros c fetched; simpl.
  - rewrite app_nil_r; reflexivity.
  - rewrite IH, <- app_assoc; reflexivity.
Qed.

(** C9: one job-like URL never makes [extract_job_from_html] run on more
    than [per_listing_cap] (100) URLs; for a listing whose links come back
    non-empty, exactly the first 100 of them (all of them if fewer) are
    fetched. *)
Theorem process_page_url_cap chk uj links_of get now url c :
  length (snd (process_page_url chk uj links_of get now url c)) <= per_listing_cap
  /\ (forall parsed pg,
        urlparse chk url = Some parsed -> is_listing_page chk url = Some true ->
        get url = Some (200, pg) -> links_of pg url (netloc parsed) <> [] ->
        snd (process_page_url chk uj links_of get now url c)
        = map fst (firstn per_listing_cap (links_of pg url (netloc parsed)))).
Proof.
  split.
  - unfold process_page_url.
    destruct (urlparse chk url) as [parsed|]; [|simpl; lia].
    destruct (is_listing_page chk url) as [[|]|]; [| simpl; unfold per_listing_cap; lia
                                                  | simpl; lia].
    destruct (get url) as [[status pg]|]; [|simpl; lia].
    destruct (negb (status =? 200)); [simpl; lia|].
    destruct (links_of pg url (netloc parsed)) as [|l ls] eqn:L;
      [simpl; unfold per_listing_cap; lia|].
    rewrite expand_links_fetched; cbn [app]; rewrite length_map; apply firstn_le_length.
  - intros parsed pg P Lp G N; unfold process_page_url.
    rewrite P, Lp, G; cbn [negb Nat.eqb].
    destruct (links_of pg url (netloc parsed)) as [|l ls]; [contradiction|].
    rewrite expand_links_fetched; reflexivity.
Qed.

(** ** Page extraction *)

Lemma description_loop_first pg pre s post el acc :
  (forall s' el', In s' pre -> select_one pg s' = Some el' -> String.length (el_text el') <= 100) ->
  select_one pg s = Some el -> 100 < String.length (el_text el) ->
  description_loop pg (pre ++ s :: post)%list acc = el_text el.
Proof.
  revert acc; induction pre as [|s0 pre IH]; intros acc Hpre Hs Hl; simpl.
  - rewrite Hs; apply Nat.ltb_lt in Hl; rewrite Hl; reflexivity.
  - destruct (select_one pg s0) as [el0|] eqn:E0.
    + assert (Hle : String.length (el_text el0) <= 100) by (apply (Hpre s0); simpl; auto).
      replace (100 <? String.length (el_text el0)) with false
        by (symmetry; apply Nat.ltb_ge; exact Hle).
      apply IH; auto; intros s' el' I; apply Hpre; simpl; auto.
    + apply IH; auto; intros s' el' I; apply Hpre; simpl; auto.
Qed.

Lemma description_loop_none pg sels acc :
  (forall s el, In s sels -> select_one pg s = Some el -> String.length (el_text el) <= 100) ->
  description_loop pg sels acc = last_found_text pg sels acc.
Proof.
  revert acc; induction sels as [|s0 r IH]; intros acc H; simpl; [reflexivity|].
  destruct (select_one pg s0) as [el0|] eqn:E0.
  - replace (100 <? String.length (el_text el0)) with false
      by (symmetry; apply Nat.ltb_ge; apply (H s0); simpl; auto).
    apply IH; intros s el I; apply H; simpl; auto.
  - apply IH; intros s el I; apply H; simpl; auto.
Qed.

(** What a record returned by [extract_job_from_html] is made of. *)
Lemma some_some_inj {A} (a b : A) : Some (Some a) = Some (Some b) -> a = b.
Proof. intros H; injection H; auto. Qed.

Lemma extract_job_from_html_some chk uj get url j :
  extract_job_from_html chk uj get url = Some (Some j) ->
  exists pg parsed app_url,
    get url = Some (200, pg) /\ urlparse chk url = Some parsed
    /\ (extract_title pg <> "" \/ extract_description pg <> "")
    /\ j = {| job_title := if String.eqb (extract_title pg) "" then "Untitled" else extract_title pg;
              job_description := extract_description pg;
              application_url := app_url;
              metadata := metadata_loop pg metadata_selectors [("source_page", Some url)];
              source_site := netloc parsed;
              source_url := url;
              extracted_at := None |}.
Proof.
  unfold extract_job_from_html; cbv zeta.
  destruct (get url) as [[status pg]|]; [|discriminate].
  destruct (status =? 200) eqn:S; cbn [negb]; [|discriminate].
  apply Nat.eqb_eq in S; subst status.
  destruct (urlparse chk url) as [parsed|]; [|discriminate].
  destruct (match apply_href pg apply_selectors with
            | Some h => uj url h | None => Some url end) as [app_url|]; [|discriminate].
  destruct (String.eqb (extract_title pg) "") eqn:T;
  destruct (String.eqb (extract_description pg) "") eqn:D; cbn [andb];
  try discriminate.
  all: intros H; apply some_some_inj in H; subst j.
  all: exists pg, parsed, app_url; rewrite T.
  all: split; [reflexivity|split; [reflexivity|split; [|reflexivity]]].
  - right; apply String.eqb_neq; exact D.
  - left; apply String.eqb_neq; exact T.
  - left; apply String.eqb_neq; exact T.
Qed.

(** C8 (amended): [extract_job_from_html] returns a record only for a page
    answering 200 whose extracted title or extracted description is
    non-empty; the record's title is that title ("Untitled" when it is
    empty) and its description that description.  A page with neither gives
    no record. *)
Theorem extract_job_from_html_min_content chk uj get url j :
  extract_job_from_html chk uj get url = Some (Some j) ->
  exists pg,
    get url = Some (200, pg)
    /\ (extract_title pg <> "" \/ extract_description pg <> "")
    /\ job_title j = (if String.eqb (extract_title pg) "" then "Untitled" else extract_title pg)
    /\ job_description j = extract_description pg
    /\ (job_title j <> "Untitled" \/ job_description j <> "" \/ extract_title pg = "Untitled").
Proof.
  intros H; apply extract_job_from_html_some in H as (pg & parsed & a & G & P & N & ->).
  exists pg; split; [exact G|split; [exact N|split; [reflexivity|split; [reflexivity|]]]].
  cbn [job_title job_description].
  destruct (String.eqb_spec (extract_title pg) "") as [T|T].
  - destruct N as [N|N]; [contradiction|right; left; exact N].
  - destruct (String.eqb_spec (extract_title pg) "Untitled") as [U|U];
    [right; right; exact U|left; exact U].
Qed.

(** C7 (amended): the description is the text of the first selector, in
    the fixed order, whose node's text is longer than 100 characters.  When
    no node qualifies, it is the text of the LAST node found, and only when
    that is empty (or nothing was found) the body text cut to 15000
    characters.  A record of [extract_job_from_html] carries this
    description. *)
Theorem extract_description_chain (pg : Page) :
  (forall pre s post el,
     description_selectors = (pre ++ s :: post)%list ->
     (forall s' el', In s' pre -> select_one pg s' = Some el' ->
                     String.length (el_text el') <= 100) ->
     select_one pg s = Some el -> 100 < String.length (el_text el) ->
     extract_description pg = el_text el)
  /\ ((forall s el, In s description_selectors -> select_one pg s = Some el ->
                    String.length (el_text el) <= 100) ->
      extract_description pg =
        (let d := last_found_text pg description_selectors "" in
         if String.eqb d "" then
           match body pg with Some b => take 15000 (el_text b) | None => "" end
         else d))
  /\ (forall chk uj get url status j,
        get url = Some (status, pg) -> extract_job_from_html chk uj get url = Some (Some j) ->
        job_description j = extract_description pg).
Proof.
  split; [|split].
  - intros pre s post el E Hpre Hs Hl; unfold extract_description.
    rewrite E, (description_loop_first pg pre s post el "" Hpre Hs Hl).
    destruct (String.eqb_spec (el_text el) "") as [Z|Z]; [|reflexivity].
    rewrite Z in Hl; simpl in Hl; lia.
  - intros H; unfold extract_description; rewrite description_loop_none by exact H.
    reflexivity.
  - intros chk uj get url status j G H.
    apply extract_job_from_html_some in H as (pg' & parsed & a & G' & P & N & ->).
    rewrite G in G'; injection G' as _ <-; reflexivity.
Qed.

(** ** Feed fetching *)

Lemma rss_items_acc chk sch nl url items jobs :
  rss_items chk sch nl url items jobs =
  (let '(js, raised) := rss_items chk sch nl url items [] in ((jobs ++ js)%list, raised)).
Proof.
  revert jobs; induction items as [|it r IH]; intros jobs; simpl.
  - rewrite app_nil_r; reflexivity.
  - destruct (rss_item_job chk sch nl url it) as [[j|]|].
    + rewrite (IH (jobs ++ [j])%list), (IH [j]).
      destruct (rss_items chk sch nl url r []) as [js b].
      rewrite app_assoc; reflexivity.
    + apply IH.
    + rewrite app_nil_r; reflexivity.
Qed.





(** ** Corpus admission and merging *)

Lemma key_eqb_eq (a b : string * string) : key_eqb a b = true <-> a = b.
Proof.
  destruct a as [a1 a2], b as [b1 b2]; unfold key_eqb; cbn [fst snd].
  rewrite andb_true_iff, !String.eqb_eq; split.
  - intros [-> ->]; reflexivity.
  - intros H; injection H as -> ->; auto.
Qed.

Lemma key_in_spec (k : string * string) (ks : list (string * string)) :
  key_in k ks = true <-> In k ks.
Proof.
  unfold key_in; rewrite existsb_exists; split.
  - intros [x [I E]]; apply key_eqb_eq in E; subst; exact I.
  - intros I; exists k; split; [exact I|apply key_eqb_eq; reflexivity].
Qed.

Lemma add_job_cases chk now job c :
  add_job chk now job c = None \/ add_job chk now job c = Some c
  \/ (~ In (job_key job) (seen_keys c)
      /\ add_job chk now job c =
         Some {| all_jobs := (all_jobs c ++ [set_extracted_at job now])%list;
                 seen_keys := (seen_keys c ++ [job_key job])%list |}).
Proof.
  unfold add_job; cbv zeta.
  destruct (negb (String.eqb (application_url job) "")
            && (str_in "/blogs/" (application_url job) || str_in "/blog/" (application_url job)));
    [right; left; reflexivity|].
  assert (Tail : forall b : option bool,
    match b with
    | None => None
    | Some true =>
        if key_in (job_key job) (seen_keys c) then Some c
        else Some {| all_jobs := (all_jobs c ++ [set_extracted_at job now])%list;
                     seen_keys := (seen_keys c ++ [job_key job])%list |}
    | Some false => Some c
    end = None \/
    match b with
    | None => None
    | Some true =>
        if key_in (job_key job) (seen_keys c) then Some c
        else Some {| all_jobs := (all_jobs c ++ [set_extracted_at job now])%list;
                     seen_keys := (seen_keys c ++ [job_key job])%list |}
    | Some false => Some c
    end = Some c \/
    (~ In (job_key job) (seen_keys c) /\
     match b with
     | None => None
     | Some true =>
         if key_in (job_key job) (seen_keys c) then Some c
         else Some {| all_jobs := (all_jobs c ++ [set_extracted_at job now])%list;
                      seen_keys := (seen_keys c ++ [job_key job])%list |}
     | Some false => Some c
     end = Some {| all_jobs := (all_jobs c ++ [set_extracted_at job now])%list;
                   seen_keys := (seen_keys c ++ [job_key job])%list |})).
  { intros [[|]|]; [|right; left; reflexivity|left; reflexivity].
    destruct (key_in (job_key job) (seen_keys c)) eqn:K; [right; left; reflexivity|].
    right; right; split; [|reflexivity].
    intros I; apply key_in_spec in I; congruence. }
  apply Tail.
Qed.

Lemma corpus_ok_add (c : corpus) (j : JobRecord) :
  corpus_ok c -> ~ In (job_key j) (seen_keys c) ->
  corpus_ok {| all_jobs := (all_jobs c ++ [j])%list; seen_keys := (seen_keys c ++ [job_key j])%list |}.
Proof.
  intros [E N] I; split; cbn [all_jobs seen_keys].
  - rewrite map_app, E; reflexivity.
  - apply NoDup_app; [exact N|constructor; [intros []|constructor]|].
    intros a A [<-|[]]; contradiction.
Qed.

Lemma job_key_merge_into (e job : JobRecord) : job_key (merge_into e job) = job_key e.
Proof.
  unfold merge_into.
  destruct (negb (String.eqb (job_description job) "")
            && (String.length (job_description e) <? String.length (job_description job)));
  destruct (metadata job); reflexivity.
Qed.

Lemma merge_first_keys key job l :
  map job_key (merge_first key job l) = map job_key l.
Proof.
  induction l as [|e r IH]; simpl; [reflexivity|].
  destruct (key_eqb (job_key e) key); simpl; rewrite ?job_key_merge_into, ?IH; reflexivity.
Qed.

Lemma merge_first_split key job l :
  In key (map job_key l) ->
  exists pre e post,
    l = (pre ++ e :: post)%list /\ job_key e = key /\ ~ In key (map job_key pre)
    /\ merge_first key job l = (pre ++ merge_into e job :: post)%list.
Proof.
  induction l as [|e r IH]; simpl; [intros []|intros I].
  destruct (key_eqb (job_key e) key) eqn:K.
  - apply key_eqb_eq in K; exists [], e, r; simpl; auto.
  - assert (N : job_key e <> key) by (intros E; apply key_eqb_eq in E; congruence).
    destruct I as [I|I]; [contradiction|].
    destruct (IH I) as (pre & e' & post & -> & Ke & Npre & M).
    exists (e :: pre), e', post; simpl; rewrite M; repeat split; auto.
    intros [H|H]; contradiction.
Qed.

Lemma dict_get_set_same d k v : dict_get (dict_set d k v) k = Some v.
Proof.
  induction d as [|[k' v'] r IH]; simpl; [rewrite String.eqb_refl; reflexivity|].
  destruct (String.eqb k k') eqn:E; simpl; rewrite ?String.eqb_refl, ?E; auto.
Qed.

Lemma dict_get_set_other d k k' v : k' <> k -> dict_get (dict_set d k v) k' = dict_get d k'.
Proof.
  intros N; induction d as [|[k0 v0] r IH]; simpl.
  - apply String.eqb_neq in N; rewrite N; reflexivity.
  - destruct (String.eqb k k0) eqn:E; simpl.
    + apply String.eqb_eq in E; subst k0.
      apply String.eqb_neq in N; rewrite N; reflexivity.
    + rewrite IH; reflexivity.
Qed.

Lemma dict_get_notin d k : ~ In k (map fst d) -> dict_get d k = None.
Proof.
  induction d as [|[k0 v0] r IH]; simpl; [reflexivity|]; intros N.
  destruct (String.eqb_spec k k0) as [->|_]; [exfalso; auto|auto].
Qed.

Lemma dict_update_get a b k :
  NoDup (map fst b) ->
  dict_get (dict_update a b) k =
  match dict_get b k with Some v => Some v | None => dict_get a k end.
Proof.
  revert a; induction b as [|[k0 v0] r IH]; intros a N; [reflexivity|].
  simpl in N; apply NoDup_cons_iff in N as [N0 N].
  change (dict_update a ((k0, v0) :: r)) with (dict_update (dict_set a k0 v0) r).
  rewrite IH by exact N; cbn [dict_get].
  destruct (String.eqb_spec k k0) as [->|D].
  - rewrite dict_get_notin by exact N0; apply dict_get_set_same.
  - destruct (dict_get r k); [reflexivity|]; apply dict_get_set_other; exact D.
Qed.

Lemma merge_into_fields (e job : JobRecord) :
  job_title (merge_into e job) = job_title e
  /\ application_url (merge_into e job) = application_url e
  /\ source_site (merge_into e job) = source_site e
  /\ source_url (merge_into e job) = source_url e
  /\ extracted_at (merge_into e job) = extracted_at e
  /\ job_description (merge_into e job) =
     (if String.length (job_description e) <? String.length (job_description job)
      then job_description job else job_description e)
  /\ metadata (merge_into e job) =
     match metadata job with [] => metadata e | _ => dict_update (metadata e) (metadata job) end.
Proof.
  unfold merge_into.
  destruct (String.eqb_spec (job_description job) "") as [D|D]; cbn [negb andb].
  - assert (L : (String.length (job_description e) <? String.length (job_description job)) = false)
      by (rewrite D; apply Nat.ltb_ge; simpl; lia).
    rewrite L; destruct (metadata job); repeat split.
  - destruct (String.length (job_description e) <? String.length (job_description job));
    destruct (metadata job); repeat split.
Qed.

(** C1 (amended): on a corpus where [seen_keys] lists the keys of
    [all_jobs] without repetition, [add_job] and the enrichment step keep
    that invariant, so the corpus holds at most one record per identity.
    [add_job] never merges: a job whose identity is already seen is
    dropped and the corpus is unchanged.  Only the enrichment step of
    [run_extraction] (a page job with a description or metadata) merges a
    repeat identity into the unique stored record with that identity; the
    merged record keeps every field of the stored one except the
    description, replaced when the new one is strictly longer, and the
    metadata, where a key of the new job gets the new value and any other
    key keeps the stored one. *)
Theorem add_job_and_enrich_job_merge chk now job c :
  corpus_ok c ->
  (forall c', add_job chk now job c = Some c' -> corpus_ok c')
  /\ (forall c', enrich_job chk now job c = Some c' -> corpus_ok c')
  /\ (In (job_key job) (seen_keys c) ->
      forall c', add_job chk now job c = Some c' -> c' = c)
  /\ (In (job_key job) (seen_keys c) -> job_description job <> "" \/ metadata job <> [] ->
      exists pre e post,
        all_jobs c = (pre ++ e :: post)%list /\ job_key e = job_key job
        /\ ~ In (job_key job) (map job_key (pre ++ post))
        /\ enrich_job chk now job c =
           Some {| all_jobs := (pre ++ merge_into e job :: post)%list; seen_keys := seen_keys c |})
  /\ (forall e,
        job_title (merge_into e job) = job_title e
        /\ application_url (merge_into e job) = application_url e
        /\ source_site (merge_into e job) = source_site e
        /\ source_url (merge_into e job) = source_url e
        /\ extracted_at (merge_into e job) = extracted_at e
        /\ job_description (merge_into e job) =
           (if String.length (job_description e) <? String.length (job_description job)
            then job_description job else job_description e)
        /\ (NoDup (map fst (metadata job)) -> forall k,
             dict_get (metadata (merge_into e job)) k =
             match dict_get (metadata job) k with Some v => Some v | None => dict_get (metadata e) k end)).
Proof.
  intros OK.
  assert (Add : forall c', add_job chk now job c = Some c' -> corpus_ok c').
  { intros c' H.
    destruct (add_job_cases chk now job c) as [E|[E|[N E]]]; rewrite E in H; try discriminate.
    - injection H as <-; exact OK.
    - injection H as <-; exact (corpus_ok_add c (set_extracted_at job now) OK N). }
  assert (Split : In (job_key job) (seen_keys c) ->
    exists pre e post,
      all_jobs c = (pre ++ e :: post)%list /\ job_key e = job_key job
      /\ ~ In (job_key job) (map job_key (pre ++ post))
      /\ merge_first (job_key job) job (all_jobs c) = (pre ++ merge_into e job :: post)%list).
  { intros I; destruct OK as [Ek Nd]; rewrite Ek in I, Nd.
    destruct (merge_first_split (job_key job) job (all_jobs c) I) as (pre & e & post & A & K & _ & M).
    exists pre, e, post; repeat split; auto.
    rewrite A, map_app in Nd; cbn [map] in Nd; rewrite K in Nd.
    rewrite map_app; exact (NoDup_remove_2 _ _ _ Nd). }
  split; [exact Add|split; [|split; [|split]]].
  - intros c' H; unfold enrich_job in H; cbv zeta in H.
    destruct (negb (String.eqb (job_description job) "")
              || match metadata job with [] => false | _ => true end);
      [|injection H as <-; exact OK].
    destruct (key_in (job_key job) (seen_keys c)) eqn:K; [|exact (Add c' H)].
    injection H as <-; destruct OK as [Ek Nd]; split; cbn [all_jobs seen_keys].
    + rewrite merge_first_keys; exact Ek.
    + exact Nd.
  - intros I c' H.
    destruct (add_job_cases chk now job c) as [E|[E|[N E]]]; rewrite E in H.
    + discriminate.
    + injection H as <-; reflexivity.
    + contradiction.
  - intros I D; destruct (Split I) as (pre & e & post & A & K & U & M).
    exists pre, e, post; repeat split; auto.
    unfold enrich_job; cbv zeta.
    assert (C : (negb (String.eqb (job_description job) "")
                 || match metadata job with [] => false | _ => true end) = true).
    { destruct D as [D|D].
      - apply String.eqb_neq in D; rewrite D; reflexivity.
      - destruct (metadata job); [contradiction|apply orb_true_r]. }
    rewrite C; apply key_in_spec in I; rewrite I, M; reflexivity.
  - intros e; destruct (merge_into_fields e job) as (T & A & S & U & X & Ds & Mt).
    repeat split; auto.
    intros N k; rewrite Mt.
    destruct (metadata job) as [|kv r] eqn:Mj; [reflexivity|].
    rewrite <- Mj; apply dict_update_get; rewrite Mj; exact N.
Qed.

(** * Instances *)

(** ** C1 *)

(** C1, counterexample: the posting is stored from its feed; seen again
    with a location, [add_job] (which step 2 of [run_extraction] calls for
    every page job) drops it whole, and the location is not merged. *)
Lemma add_job_drops_repeat_identity :
  job_key ex_page_obs = job_key ex_feed_job
  /\ dict_get (metadata ex_page_obs) "location" = Some (Some "Berlin")
  /\ add_job no_bracket_check ex_now ex_page_obs ex_corpus = Some ex_corpus
  /\ dict_get (metadata (set_extracted_at ex_feed_job ex_now)) "location" = None.
Proof. split; [|split; [|split]]; vm_compute; reflexivity. Qed.

Lemma add_job_and_enrich_job_merge_witness :
  corpus_ok ex_corpus
  /\ (forall c', enrich_job no_bracket_check ex_now ex_page_obs ex_corpus = Some c' -> corpus_ok c').
Proof.
  assert (OK : corpus_ok ex_corpus).
  { split; [reflexivity|constructor; [intros []|constructor]]. }
  split; [exact OK|].
  exact (proj1 (proj2 (add_job_and_enrich_job_merge no_bracket_check ex_now ex_page_obs ex_corpus OK))).
Defined.

(** ** C2 *)

(** C2, counterexample: a posting on a tenant subdomain whose path holds
    "/careers/" is rejected, because its slug holds "hr-trends". *)
Lemma is_likely_job_posting_tenant_hr_trends :
  exists p,
    urlparse no_bracket_check "https://acme.avature.net/careers/JobDetail/HR-Trends-Analyst/123"
    = Some p
    /\ tenant_host (lower (netloc p)) = true
    /\ str_in "/careers/" (lower (path p)) = true
    /\ is_likely_job_posting no_bracket_check
         "https://acme.avature.net/careers/JobDetail/HR-Trends-Analyst/123"
         "HR Trends Analyst" "" = Some false.
Proof.
  exists (ex_parsed "acme.avature.net" "/careers/JobDetail/HR-Trends-Analyst/123" "").
  split; [|split; [|split]]; vm_compute; reflexivity.
Qed.

(** ** C3 *)



(** ** C4 *)



(** ** C5 *)

(** C5, counterexample: "/careers/SearchJobs" is none of "", "/",
    "/careers", "/jobs", and the hub classifier accepts it. *)
Lemma is_likely_career_hub_search_jobs :
  exists p,
    urlparse no_bracket_check ex_listing_url = Some p
    /\ path p = "/careers/SearchJobs"
    /\ is_likely_career_hub no_bracket_check ex_listing_url = Some true.
Proof.
  exists (ex_parsed "acme.avature.net" "/careers/SearchJobs" "").
  split; [|split]; vm_compute; reflexivity.
Qed.

Lemma is_likely_career_hub_iff_witness :
  is_likely_career_hub no_bracket_check ex_base = Some true.
Proof.
  apply (proj2 (proj1 (proj2 (is_likely_career_hub_iff no_bracket_check ex_base
           (ex_parsed "acme.avature.net" "/careers" "") ltac:(vm_compute; reflexivity))))).
  right; left; vm_compute; reflexivity.
Defined.

(** ** C6 *)



(** ** C7 *)

(** C7, counterexample: no container of [ex_short_page] is longer than 100
    characters, the body is, and the description is the short container's
    text, not the body. *)
Lemma extract_description_short_container :
  100 < String.length ex_body_text
  /\ String.length "Short." <= 100
  /\ extract_description ex_short_page = "Short.".
Proof.
  split; [apply Nat.ltb_lt; vm_compute; reflexivity|split; [apply Nat.leb_le; reflexivity|]].
  vm_compute; reflexivity.
Qed.

Lemma extract_description_chain_witness :
  extract_description ex_short_page
  = last_found_text ex_short_page description_selectors "".
Proof.
  rewrite (proj1 (proj2 (extract_description_chain ex_short_page))).
  - vm_compute; reflexivity.
  - intros sel el _ E; cbn [select_one ex_short_page] in E.
    destruct (String.eqb sel ".job-description"); [|discriminate].
    injection E as <-; apply Nat.leb_le; reflexivity.
Defined.

(** ** C8 *)

(** C8, counterexample: a feed item with a link but no title and no
    description becomes an "Untitled" job with an empty description, and
    [add_job] stores it. *)
Lemma fetch_rss_jobs_admits_shell_item :
  fetch_rss_jobs no_bracket_check ex_shell_feed_get ex_base = Some ([ex_shell_job], ["/rss"])
  /\ job_title ex_shell_job = "Untitled" /\ job_description ex_shell_job = ""
  /\ add_job no_bracket_check ex_now ex_shell_job empty_corpus
     = Some {| all_jobs := [set_extracted_at ex_shell_job ex_now];
               seen_keys := [job_key ex_shell_job] |}.
Proof. split; [|split; [|split]]; vm_compute; reflexivity. Qed.

Lemma extract_job_from_html_min_content_witness :
  exists pg,
    ex_page_get ex_detail_url = Some (200, pg)
    /\ (extract_title pg <> "" \/ extract_description pg <> "")
    /\ job_title ex_page_job = (if String.eqb (extract_title pg) "" then "Untitled" else extract_title pg)
    /\ job_description ex_page_job = extract_description pg
    /\ (job_title ex_page_job <> "Untitled" \/ job_description ex_page_job <> ""
        \/ extract_title pg = "Untitled").
Proof.
  apply (extract_job_from_html_min_content no_bracket_check ex_urljoin ex_page_get ex_detail_url).
  vm_compute; reflexivity.
Defined.

(** ** C9 *)

Lemma process_page_url_cap_witness :
  length (snd (process_page_url no_bracket_check ex_urljoin (fun _ _ _ => ex_links)
                                ex_page_get ex_now ex_listing_url empty_corpus)) = 100.
Proof.
  destruct (process_page_url_cap no_bracket_check ex_urljoin (fun _ _ _ => ex_links)
              ex_page_get ex_now ex_listing_url empty_corpus) as [_ H].
  rewrite (H (ex_parsed "acme.avature.net" "/careers/SearchJobs" "") ex_titled_page).
  - vm_compute; reflexivity.
  - vm_compute; reflexivity.
  - vm_compute; reflexivity.
  - reflexivity.
  - discriminate.
Defined.

(** * Further properties *)

(** ** String lemmas *)

Lemma append_empty_r (s : string) : s ++ "" = s.
Proof. induction s as [|c r IH]; simpl; [reflexivity|rewrite IH; reflexivity]. Qed.

Lemma str_length_app (a b : string) : String.length (a ++ b) = String.length a + String.length b.
Proof. induction a as [|c r IH]; simpl; [reflexivity|rewrite IH; reflexivity]. Qed.

Lemma take_length (n : nat) (s : string) : String.length (take n s) <= n.
Proof.
  unfold take; revert s; induction n as [|n IH]; intros s; destruct s as [|c r]; simpl; try lia.
  specialize (IH r); unfold take in IH; lia.
Qed.

Lemma str_in_app_mid (sub a x b : string) :
  str_in sub x = true -> str_in sub (a ++ x ++ b) = true.
Proof.
  intros H; apply str_in_spec in H as [x1 [y1 ->]]; apply str_in_spec.
  exists (a ++ x1), (y1 ++ b); rewrite !append_assoc_str; reflexivity.
Qed.

Lemma existsb_eqb_false (u : string) (l : list string) :
  existsb (String.eqb u) l = false -> ~ In u l.
Proof.
  intros H I; assert (E : existsb (String.eqb u) l = true)
    by (apply existsb_exists; exists u; split; [exact I|apply String.eqb_refl]).
  congruence.
Qed.

Lemma existsb_eqb_true (u : string) (l : list string) :
  existsb (String.eqb u) l = true -> In u l.
Proof.
  intros H; apply existsb_exists in H as [x [I E]]; apply String.eqb_eq in E; subst; exact I.
Qed.

(** ** [strip] *)

Lemma lstrip_ws_suffix (s : string) : exists a, s = a ++ lstrip_ws s.
Proof.
  induction s as [|c r [a IH]]; simpl; [exists ""; reflexivity|].
  destruct (is_space c); [exists (String c a); simpl; rewrite <- IH; reflexivity|].
  exists ""; reflexivity.
Qed.

Lemma rstrip_ws_prefix (s : string) : exists b, s = rstrip_ws s ++ b.
Proof.
  induction s as [|c r [b IH]]; simpl; [exists ""; reflexivity|].
  destruct (String.eqb (rstrip_ws r) "" && is_space c).
  - exists (String c r); reflexivity.
  - exists b; simpl; rewrite <- IH; reflexivity.
Qed.

Lemma strip_infix (s : string) : exists a b, s = a ++ strip s ++ b.
Proof.
  destruct (lstrip_ws_suffix s) as [a Ha].
  destruct (rstrip_ws_prefix (lstrip_ws s)) as [b Hb].
  exists a, b; unfold strip; rewrite <- Hb; exact Ha.
Qed.

Lemma lstrip_ws_head (s r : string) (c : ascii) :
  lstrip_ws s = String c r -> is_space c = false.
Proof.
  induction s as [|d t IH]; simpl; [discriminate|].
  destruct (is_space d) eqn:D; [exact IH|intros H; injection H as -> _; exact D].
Qed.

Lemma rstrip_ws_keep_head (c : ascii) (r : string) :
  is_space c = false -> rstrip_ws (String c r) = String c (rstrip_ws r).
Proof. intros D; simpl; rewrite D, andb_false_r; reflexivity. Qed.

Lemma rstrip_ws_last (s x : string) (c : ascii) :
  rstrip_ws s = x ++ String c "" -> is_space c = false.
Proof.
  revert x; induction s as [|d t IH]; intros x; simpl.
  - destruct x; discriminate.
  - destruct (String.eqb (rstrip_ws t) "") eqn:E; destruct (is_space d) eqn:D; cbn [andb].
    + destruct x; discriminate.
    + destruct x as [|e x]; simpl; intros H; injection H as H1 H2.
      * subst; exact D.
      * apply String.eqb_eq in E; rewrite E in H2; destruct x; discriminate.
    + destruct x as [|e x]; simpl; intros H; injection H as H1 H2.
      * rewrite H2 in E; discriminate.
      * exact (IH x H2).
    + destruct x as [|e x]; simpl; intros H; injection H as H1 H2.
      * rewrite H2 in E; discriminate.
      * exact (IH x H2).
Qed.

Lemma rstrip_ws_idem (s : string) : rstrip_ws (rstrip_ws s) = rstrip_ws s.
Proof.
  induction s as [|c r IH]; [reflexivity|].
  cbn [rstrip_ws]; destruct (String.eqb (rstrip_ws r) "" && is_space c) eqn:E; [reflexivity|].
  cbn [rstrip_ws]; rewrite IH, E; reflexivity.
Qed.

Lemma strip_idem (s : string) : strip (strip s) = strip s.
Proof.
  unfold strip; destruct (lstrip_ws s) as [|c r] eqn:L; [reflexivity|].
  pose proof (lstrip_ws_head s r c L) as D.
  rewrite (rstrip_ws_keep_head c r D); cbn [lstrip_ws]; rewrite D.
  rewrite <- (rstrip_ws_keep_head c r D), rstrip_ws_idem; reflexivity.
Qed.

(** ** Newline runs *)

Lemma newlines_snoc (n : nat) (r : string) :
  newlines n ++ String newline r = String newline (newlines n ++ r).
Proof. induction n as [|n IH]; simpl; [reflexivity|rewrite IH; reflexivity]. Qed.

Lemma newline_run_short (n : nat) : exists k, k <= 2 /\ newline_run n = newlines k.
Proof.
  unfold newline_run; destruct (3 <=? n) eqn:E; [exists 2; split; [lia|reflexivity]|].
  apply Nat.leb_gt in E; exists n; split; [lia|reflexivity].
Qed.

Lemma newline_eqb : Ascii.eqb newline newline = true.
Proof. reflexivity. Qed.

Lemma short_runs_no_prefix (run : nat) (s : string) :
  run <= 2 -> short_runs run s = true ->
  forall m, 3 <= run + m -> prefix (newlines m) s = false.
Proof.
  revert run; induction s as [|c r IH]; intros run Hr H m Hm.
  - destruct m; [lia|reflexivity].
  - destruct m as [|m]; [lia|]; cbn [newlines prefix].
    cbn [short_runs] in H.
    destruct (ascii_dec newline c) as [<-|N].
    + rewrite newline_eqb in H.
      apply andb_true_iff in H as [L H]; apply Nat.ltb_lt in L.
      apply (IH (S run)); [lia|exact H|lia].
    + reflexivity.
Qed.

Lemma short_runs_no3 (run : nat) (s : string) :
  run <= 2 -> short_runs run s = true -> str_in (newlines 3) s = false.
Proof.
  revert run; induction s as [|c r IH]; intros run Hr H; [reflexivity|].
  cbn [str_in]; rewrite (short_runs_no_prefix run (String c r) Hr H 3 ltac:(lia)); cbn [orb].
  cbn [short_runs] in H; destruct (Ascii.eqb c newline).
  - apply andb_true_iff in H as [L H]; apply Nat.ltb_lt in L; apply (IH (S run)); [lia|exact H].
  - apply (IH 0); [lia|exact H].
Qed.

Lemma short_runs_newlines (run k : nat) : run + k <= 2 -> short_runs run (newlines k) = true.
Proof.
  revert run; induction k as [|k IH]; intros run H; [reflexivity|].
  cbn [newlines short_runs]; rewrite newline_eqb.
  replace (run <? 2) with true by (symmetry; apply Nat.ltb_lt; lia).
  apply IH; lia.
Qed.

Lemma short_runs_newlines_app (run k : nat) (c : ascii) (t : string) :
  run + k <= 2 -> Ascii.eqb c newline = false ->
  short_runs run (newlines k ++ String c t) = short_runs 0 t.
Proof.
  revert run; induction k as [|k IH]; intros run H N; cbn [newlines append short_runs].
  - rewrite N; reflexivity.
  - rewrite newline_eqb; replace (run <? 2) with true by (symmetry; apply Nat.ltb_lt; lia).
    apply IH; [lia|exact N].
Qed.

Lemma collapse_short (n : nat) (s : string) : short_runs 0 (collapse_newlines n s) = true.
Proof.
  revert n; induction s as [|c r IH]; intros n; cbn [collapse_newlines].
  - destruct (newline_run_short n) as [k [K ->]]; apply short_runs_newlines; lia.
  - destruct (Ascii.eqb c newline) eqn:N; [apply IH|].
    destruct (newline_run_short n) as [k [K ->]].
    rewrite short_runs_newlines_app by (lia || exact N); apply IH.
Qed.

Lemma prefix_newlines3 (r : string) :
  prefix (newlines 3) (String newline (String newline (String newline r))) = true.
Proof.
  cbn [newlines prefix].
  destruct (ascii_dec newline newline) as [_|N]; [|contradiction N; reflexivity]; destruct r; reflexivity.
Qed.

Lemma no3_short_runs (run : nat) (s : string) :
  run <= 2 -> str_in (newlines 3) (newlines run ++ s) = false -> short_runs run s = true.
Proof.
  revert run; induction s as [|c r IH]; intros run Hr H; [reflexivity|].
  cbn [short_runs]; destruct (Ascii.eqb c newline) eqn:N.
  - apply Ascii.eqb_eq in N; subst c.
    destruct (Nat.ltb_spec run 2) as [L|L].
    + apply IH; [lia|]; rewrite newlines_snoc in H; exact H.
    + assert (run = 2) as -> by lia.
      exfalso; revert H; cbn [newlines append str_in]; rewrite prefix_newlines3; discriminate.
  - apply IH; [lia|]; cbn [newlines append].
    destruct (str_in (newlines 3) r) eqn:E; [|exact E].
    exfalso; pose proof (str_in_app_mid _ (newlines run ++ String c "") r "" E) as E'.
    rewrite append_empty_r, append_assoc_str in E'; cbn [append] in E'; congruence.
Qed.

Lemma collapse_id (run : nat) (s : string) :
  run <= 2 -> short_runs run s = true -> collapse_newlines run s = newlines run ++ s.
Proof.
  revert run; induction s as [|c r IH]; intros run Hr H; cbn [collapse_newlines].
  - unfold newline_run; replace (3 <=? run) with false by (symmetry; apply Nat.leb_gt; lia).
    rewrite append_empty_r; reflexivity.
  - cbn [short_runs] in H; destruct (Ascii.eqb c newline) eqn:N.
    + apply Ascii.eqb_eq in N; subst c.
      apply andb_true_iff in H as [L H]; apply Nat.ltb_lt in L.
      rewrite (IH (S run)) by (lia || exact H); cbn [newlines]; rewrite newlines_snoc; reflexivity.
    + rewrite (IH 0) by (lia || exact H); unfold newline_run.
      replace (3 <=? run) with false by (symmetry; apply Nat.leb_gt; lia); reflexivity.
Qed.

Lemma clean_text_no3 (t : option string) : str_in (newlines 3) (html_to_clean_text t) = false.
Proof.
  destruct t as [t|]; [|reflexivity]; cbn [html_to_clean_text].
  destruct (str_in (newlines 3) (strip (collapse_newlines 0 t))) eqn:E; [|reflexivity].
  destruct (strip_infix (collapse_newlines 0 t)) as [a [b Hab]].
  pose proof (str_in_app_mid _ a _ b E) as E'; rewrite <- Hab in E'.
  rewrite (short_runs_no3 0 _ ltac:(lia) (collapse_short 0 t)) in E'; discriminate.
Qed.

(** ** Link loading from several files *)

Lemma merge_new_links_same (urls m : list string) :
  exists m', merge_new_links urls m m = (m', m')
    /\ (exists rest, m' = (m ++ rest)%list)
    /\ (NoDup m -> NoDup m')
    /\ (forall u, In u m' <-> In u m \/ In u urls).
Proof.
  revert m; induction urls as [|url r IH]; intros m; cbn [merge_new_links].
  - exists m; repeat split; auto.
    + exists []; rewrite app_nil_r; reflexivity.
    + intros [H|[]]; exact H.
  - destruct (existsb (String.eqb url) m) eqn:E.
    + destruct (IH m) as (m' & Hm & [rest Hr] & Hn & Hi); exists m'; repeat split; auto.
      * exists rest; exact Hr.
      * intros H; apply Hi in H as [H|H]; [left|right; right]; exact H.
      * intros [H|[<-|H]]; apply Hi; [left|left; apply existsb_eqb_true; exact E|right]; auto.
    + destruct (IH (m ++ [url])%list) as (m' & Hm & [rest Hr] & Hn & Hi); exists m'; repeat split; auto.
      * exists (url :: rest); rewrite Hr, <- app_assoc; reflexivity.
      * intros N; apply Hn, NoDup_app; [exact N|constructor; [intros []|constructor]|].
        intros a A [<-|[]]; exact (existsb_eqb_false _ _ E A).
      * intros H; apply Hi in H as [H|H]; [apply in_app_iff in H as [H|[<-|[]]]|].
        -- left; exact H.
        -- right; left; reflexivity.
        -- right; right; exact H.
      * intros [H|[<-|H]]; apply Hi.
        -- left; apply in_app_iff; left; exact H.
        -- left; apply in_app_iff; right; left; reflexivity.
        -- right; exact H.
Qed.

Lemma load_files_loop_same (files : list (option string)) (m : list string) :
  (exists rest, load_files_loop files m m = (m ++ rest)%list)
  /\ (NoDup m -> NoDup (load_files_loop files m m))
  /\ (forall u, In u (load_files_loop files m m) <->
                In u m \/ exists f, In f files /\ In u (load_links_from_file f)).
Proof.
  revert m; induction files as [|f fs IH]; intros m; cbn [load_files_loop].
  - repeat split; auto.
    + exists []; rewrite app_nil_r; reflexivity.
    + intros [H|[f [[] _]]]; exact H.
  - destruct (merge_new_links_same (load_links_from_file f) m) as (m' & -> & [r1 H1] & N1 & I1).
    destruct (IH m') as ([r2 H2] & N2 & I2); repeat split.
    + exists (r1 ++ r2)%list; rewrite H2, H1, app_assoc; reflexivity.
    + intros N; apply N2, N1, N.
    + intros H; apply I2 in H as [H|[g [G H]]].
      * apply I1 in H as [H|H]; [left; exact H|right; exists f; split; [left|]; auto].
      * right; exists g; split; [right|]; auto.
    + intros [H|[g [[<-|G] H]]]; apply I2.
      * left; apply I1; left; exact H.
      * left; apply I1; right; exact H.
      * right; exists g; split; auto.
Qed.

Lemma load_files_loop_app (fs1 fs2 : list (option string)) (m : list string) :
  load_files_loop (fs1 ++ fs2) m m
  = load_files_loop fs2 (load_files_loop fs1 m m) (load_files_loop fs1 m m).
Proof.
  revert m; induction fs1 as [|f fs IH]; intros m; [reflexivity|].
  cbn [app load_files_loop].
  destruct (merge_new_links_same (load_links_from_file f) m) as (m' & -> & _).
  apply IH.
Qed.

(** ** Extra properties of [html_to_clean_text] and [load_links_from_files] *)

(** [html_to_clean_text] never returns three newlines in a row, and its
    result neither starts nor ends with whitespace. *)
Theorem html_to_clean_text_shape (t : option string) :
  str_in (newlines 3) (html_to_clean_text t) = false
  /\ (forall c r, html_to_clean_text t = String c r -> is_space c = false)
  /\ (forall x c, html_to_clean_text t = x ++ String c "" -> is_space c = false).
Proof.
  split; [apply clean_text_no3|].
  destruct t as [t|]; cbn [html_to_clean_text]; [|split; [intros c r H; discriminate|intros x c H; destruct x; discriminate]].
  unfold strip; split.
  - intros c r; destruct (lstrip_ws (collapse_newlines 0 t)) as [|d u] eqn:L; [discriminate|].
    pose proof (lstrip_ws_head _ _ _ L) as D.
    rewrite (rstrip_ws_keep_head d u D); intros H; injection H as <- _; exact D.
  - intros x c; apply rstrip_ws_last.
Qed.

(** Cleaning an already cleaned text changes nothing. *)
Theorem html_to_clean_text_idempotent (t : option string) :
  html_to_clean_text (Some (html_to_clean_text t)) = html_to_clean_text t.
Proof.
  cbn [html_to_clean_text].
  rewrite (collapse_id 0 (html_to_clean_text t) ltac:(lia)
             (no3_short_runs 0 _ ltac:(lia) (clean_text_no3 t))).
  cbn [newlines append]; destruct t as [t|]; [apply strip_idem|reflexivity].
Qed.

(** [load_links_from_files] returns each URL once, and exactly the URLs
    found by [load_links_from_file] in some of the files. *)
Theorem load_links_from_files_union (files : list (option string)) :
  NoDup (load_links_from_files files)
  /\ (forall u, In u (load_links_from_files files) <->
                exists f, In f files /\ In u (load_links_from_file f)).
Proof.
  unfold load_links_from_files; destruct (load_files_loop_same files []) as (_ & N & I).
  split; [apply N; constructor|].
  intros u; rewrite I; split; [intros [[]|H]; exact H|intros H; right; exact H].
Qed.

(** The links of the first files come first, unchanged, whatever files
    follow them. *)
Theorem load_links_from_files_prefix (fs1 fs2 : list (option string)) :
  exists rest, load_links_from_files (fs1 ++ fs2) = (load_links_from_files fs1 ++ rest)%list.
Proof.
  unfold load_links_from_files; rewrite load_files_loop_app.
  destruct (load_files_loop_same fs2 (load_files_loop fs1 [] [])) as ([rest H] & _).
  exists rest; exact H.
Qed.

(** ** Listing links *)

Lemma cut_title_ok (limit : nat) (title : string) :
  title <> "" -> cut_title limit title <> "" /\ String.length (cut_title limit title) <= limit + 3.
Proof.
  intros T; unfold cut_title; destruct (limit <? String.length title) eqn:L.
  - pose proof (take_length limit title) as K; split.
    + intros H; apply (f_equal String.length) in H; rewrite str_length_app in H; simpl in H; lia.
    + rewrite str_length_app; simpl; lia.
  - apply Nat.ltb_ge in L; split; [exact T|lia].
Qed.

Lemma job_or_title_nonempty (t : string) : (if String.eqb t "" then "Job" else t) <> "".
Proof. destruct (String.eqb_spec t ""); [discriminate|exact n]. Qed.

Lemma title_chain_nonempty (x y : string) :
  (if negb (String.eqb x "") then x else if negb (String.eqb y "") then y else "Job") <> "".
Proof.
  destruct (String.eqb_spec x ""); cbn [negb]; [|assumption].
  destruct (String.eqb_spec y ""); cbn [negb]; [discriminate|assumption].
Qed.

Section ListingProofs.

Variable chk : string -> bool.
Variable uj : string -> string -> option string.

Lemma anchor_step_cases (base nl : string) (pb : ParseResult) (seen : list string)
    (res : list (string * string)) (a : Anchor) acc' :
  anchor_step chk uj base nl pb (seen, res) a = Some acc' ->
  acc' = (seen, res)
  \/ exists u t, acc' = ((seen ++ [u])%list, (res ++ [(u, t)])%list) /\ ~ In u seen
     /\ link_ok chk nl 303 (u, t) /\ rstrip_slash u <> rstrip_slash base.
Proof.
  unfold anchor_step; cbv beta iota zeta.
  destruct (String.eqb (strip (a_href a)) ""); [intros H; left; congruence|].
  destruct (uj base (a_href a)) as [full|]; [|discriminate].
  destruct (urlparse chk full) as [p|] eqn:P; [|intros H; left; congruence].
  destruct (String.eqb (lower (netloc p)) (lower nl)) eqn:Nl; cbn [negb];
    [|intros H; left; congruence].
  destruct (String.eqb full base) eqn:B1; cbn [orb]; [intros H; left; congruence|].
  destruct (String.eqb (rstrip_slash full) (rstrip_slash base)) eqn:B2;
    [intros H; left; congruence|].
  repeat match goal with
  | |- (if ?c then Some (seen, res) else _) = _ -> _ =>
      let E := fresh "E" in destruct c eqn:E; [intros H; left; congruence|]
  end.
  intros H; injection H as <-; right; do 2 eexists; split; [reflexivity|].
  match goal with E : existsb _ _ = false |- _ => pose proof (existsb_eqb_false _ _ E) end.
  destruct (cut_title_ok 300 _ (job_or_title_nonempty (strip (html_to_clean_text (Some (a_text a))))))
    as [T1 T2].
  split; [assumption|split; [split; [exists p; split; [exact P|apply String.eqb_eq; exact Nl]|]|]].
  - split; [exact T1|exact T2].
  - apply String.eqb_neq; exact B2.
Qed.

Lemma anchors_loop_inv (base nl : string) (pb : ParseResult) (l : list Anchor) :
  forall seen res acc',
  seen = map fst res -> NoDup seen ->
  Forall (fun ut => link_ok chk nl 303 ut /\ rstrip_slash (fst ut) <> rstrip_slash base) res ->
  anchors_loop chk uj base nl pb l (seen, res) = Some acc' ->
  fst acc' = map fst (snd acc') /\ NoDup (fst acc')
  /\ Forall (fun ut => link_ok chk nl 303 ut /\ rstrip_slash (fst ut) <> rstrip_slash base)
            (snd acc').
Proof.
  induction l as [|a r IH]; intros seen res acc' S N F; cbn [anchors_loop].
  - intros H; injection H as <-; auto.
  - destruct (anchor_step chk uj base nl pb (seen, res) a) as [[seen' res']|] eqn:A;
      [|discriminate].
    apply anchor_step_cases in A as [A|(u & t & A & NI & OK & B)].
    + injection A as -> ->; apply IH; assumption.
    + injection A as -> ->; apply IH.
      * rewrite map_app, S; reflexivity.
      * apply NoDup_app; [exact N|constructor; [intros []|constructor]|].
        intros x X [<-|[]]; exact (NI X).
      * apply Forall_app; split; [exact F|constructor; [split; assumption|constructor]].
Qed.

Lemma block_step_cases (base nl : string) (seen : list string)
    (res : list (string * string)) (b : Block) acc' :
  block_step chk uj base nl (seen, res) b = Some acc' ->
  acc' = (seen, res)
  \/ exists u t, acc' = ((seen ++ [u])%list, (res ++ [(u, t)])%list) /\ ~ In u seen
     /\ link_ok chk nl 403 (u, t).
Proof.
  unfold block_step; cbv beta iota zeta.
  destruct (match b_detail_link b with Some l => Some l | None => b_any_link b end) as [l|];
    [|intros H; left; congruence].
  destruct (String.eqb (a_href l) ""); [intros H; left; congruence|].
  destruct (uj base (a_href l)) as [full|]; [|discriminate].
  destruct (urlparse chk full) as [p|] eqn:P; [|discriminate].
  destruct (String.eqb (lower (netloc p)) (lower nl)) eqn:Nl; cbn [negb];
    [|intros H; left; congruence].
  destruct (existsb (String.eqb full) seen) eqn:E; [intros H; left; congruence|].
  match goal with |- (if ?c then _ else _) = _ -> _ => destruct c end;
    [|intros H; left; congruence].
  intros H; injection H as <-; right; do 2 eexists; split; [reflexivity|].
  split; [exact (existsb_eqb_false _ _ E)|].
  split; [exists p; split; [exact P|apply String.eqb_eq; exact Nl]|].
  match goal with |- snd (_, cut_title 400 ?t) <> "" /\ _ =>
    assert (T : t <> "") by apply title_chain_nonempty end.
  destruct (cut_title_ok 400 _ T) as [T1 T2]; split; [exact T1|exact T2].
Qed.

Lemma blocks_loop_inv (base nl : string) (l : list Block) :
  forall seen res acc',
  seen = map fst res -> NoDup seen -> Forall (link_ok chk nl 403) res ->
  blocks_loop chk uj base nl l (seen, res) = Some acc' ->
  fst acc' = map fst (snd acc') /\ NoDup (fst acc') /\ Forall (link_ok chk nl 403) (snd acc').
Proof.
  induction l as [|b r IH]; intros seen res acc' S N F; cbn [blocks_loop].
  - intros H; injection H as <-; auto.
  - destruct (block_step chk uj base nl (seen, res) b) as [[seen' res']|] eqn:A;
      [|discriminate].
    apply block_step_cases in A as [A|(u & t & A & NI & OK)].
    + injection A as -> ->; apply IH; assumption.
    + injection A as -> ->; apply IH.
      * rewrite map_app, S; reflexivity.
      * apply NoDup_app; [exact N|constructor; [intros []|constructor]|].
        intros x X [<-|[]]; exact (NI X).
      * apply Forall_app; split; [exact F|constructor; [assumption|constructor]].
Qed.

Lemma link_ok_weaken (nl : string) (m n : nat) (ut : string * string) :
  m <= n -> link_ok chk nl m ut -> link_ok chk nl n ut.
Proof. intros L (P & T & K); split; [exact P|split; [exact T|lia]]. Qed.

End ListingProofs.

(** [extract_job_links_from_listing] returns each URL once, every URL on
    the site [netloc] (compared lower-case), and every title non-empty and
    at most 403 characters long. *)
Theorem extract_job_links_from_listing_ok (chk : string -> bool)
    (uj : string -> string -> option string) (page : Listing) (base nl : string)
    (links : list (string * string)) :
  extract_job_links_from_listing chk uj page base nl = Some links ->
  NoDup (map fst links)
  /\ forall u t, In (u, t) links ->
     (exists p, urlparse chk u = Some p /\ lower (netloc p) = lower nl)
     /\ t <> "" /\ String.length t <= 403.
Proof.
  unfold extract_job_links_from_listing.
  destruct (urlparse chk base) as [pb|]; [|discriminate].
  destruct (anchors_loop chk uj base nl pb (anchors page) ([], [])) as [[seen res]|] eqn:A;
    [|discriminate].
  destruct (anchors_loop_inv chk uj base nl pb (anchors page) [] [] _
              eq_refl (NoDup_nil _) (Forall_nil _) A) as (S & N & F); cbn [fst snd] in S, N, F.
  assert (G : forall sn l, sn = map fst l -> NoDup sn -> Forall (link_ok chk nl 403) l ->
              NoDup (map fst l) /\ forall u t, In (u, t) l ->
              (exists p, urlparse chk u = Some p /\ lower (netloc p) = lower nl)
              /\ t <> "" /\ String.length t <= 403).
  { intros sn l -> N' F'; split; [exact N'|].
    intros u t I; rewrite Forall_forall in F'; exact (F' (u, t) I). }
  destruct res as [|r0 rs].
  - cbn [option_map]; destruct (blocks_loop chk uj base nl (blocks page) (seen, [])) as [[s' r']|] eqn:B;
      [|discriminate].
    intros H; injection H as <-.
    destruct (blocks_loop_inv chk uj base nl (blocks page) seen [] _ S N (Forall_nil _) B)
      as (S' & N' & F'); cbn [fst snd] in S', N', F'.
    exact (G s' r' S' N' F').
  - intros H; injection H as <-; apply (G _ _ S N).
    eapply Forall_impl; [|exact F]; intros ut [OK _]; apply (link_ok_weaken chk nl 303); [lia|exact OK].
Qed.

(** When the anchors of a listing give links, the fallback selection is not
    consulted: the result is the same whatever the page's other job nodes,
    and no link is the listing URL itself, even up to trailing slashes, and
    every title is at most 303 characters long. *)
Theorem extract_job_links_from_listing_anchors_first (chk : string -> bool)
    (uj : string -> string -> option string) (anc : list Anchor) (bs : list Block)
    (base nl : string) (links : list (string * string)) :
  extract_job_links_from_listing chk uj {| anchors := anc; blocks := [] |} base nl = Some links ->
  links <> [] ->
  extract_job_links_from_listing chk uj {| anchors := anc; blocks := bs |} base nl = Some links
  /\ forall u t, In (u, t) links ->
     rstrip_slash u <> rstrip_slash base /\ String.length t <= 303.
Proof.
  unfold extract_job_links_from_listing; cbn [anchors blocks].
  destruct (urlparse chk base) as [pb|]; [|discriminate].
  destruct (anchors_loop chk uj base nl pb anc ([], [])) as [[seen res]|] eqn:A; [|discriminate].
  destruct res as [|r0 rs]; [cbn; intros H; injection H as <-; intros L; contradiction L; reflexivity|].
  intros H NE; injection H as <-; split; [reflexivity|].
  destruct (anchors_loop_inv chk uj base nl pb anc [] [] _
              eq_refl (NoDup_nil _) (Forall_nil _) A) as (_ & _ & F); cbn [snd] in F.
  intros u t I; rewrite Forall_forall in F; destruct (F (u, t) I) as [(_ & _ & K) B].
  split; [exact B|exact K].
Qed.

(** ** Feed jobs *)

Lemma some_inj {A : Type} (a b : A) : Some a = Some b -> a = b.
Proof. intros H; injection H as H; exact H. Qed.

Lemma rss_item_job_ok chk sch nl url it j :
  rss_item_job chk sch nl url it = Some (Some j) -> rss_job_ok chk nl url j.
Proof.
  unfold rss_item_job; cbv zeta.
  destruct (String.eqb (item_title it) "" && String.eqb (item_link it) ""); [discriminate|].
  match goal with |- context [is_likely_job_posting chk ?l _ _] => remember l as link eqn:EL end.
  destruct (String.eqb_spec link "") as [_|L]; [discriminate|].
  destruct (is_likely_job_posting chk link (item_title it) url) as [[|]|] eqn:J; try discriminate.
  intros H; injection H as <-; unfold rss_job_ok; cbn.
  repeat split; try assumption.
  - exists (item_title it); split; [reflexivity|exact J].
  - do 2 eexists; reflexivity.
Qed.

Lemma rss_items_ok chk sch nl url (R : JobRecord -> Prop) items :
  (forall j, rss_job_ok chk nl url j -> R j) ->
  forall jobs, Forall R jobs -> Forall R (fst (rss_items chk sch nl url items jobs)).
Proof.
  intros HR; induction items as [|it r IH]; intros jobs F; cbn [rss_items]; [exact F|].
  destruct (rss_item_job chk sch nl url it) as [[j|]|] eqn:E; [| |exact F].
  - apply IH, Forall_app; split; [exact F|constructor; [apply HR, (rss_item_job_ok _ _ _ _ _ _ E)|constructor]].
  - apply IH, F.
Qed.

Lemma rss_loop_ok chk get sch nl origin (all : list string) paths :
  incl paths all ->
  forall jobs tried,
  Forall (fun j => exists pth, In pth all /\ rss_job_ok chk nl (origin ++ pth) j) jobs ->
  Forall (fun j => exists pth, In pth all /\ rss_job_ok chk nl (origin ++ pth) j)
         (fst (rss_loop chk get sch nl origin paths jobs tried)).
Proof.
  induction paths as [|q ps IH]; intros Inc jobs tried F; cbn [rss_loop]; [exact F|].
  assert (Inc' : incl ps all) by (intros x X; apply Inc; right; exact X).
  destruct (get (origin ++ q)) as [[status [items|]]|]; [|apply IH; assumption..].
  destruct (status =? 200); [|apply IH; assumption].
  pose proof (rss_items_ok chk sch nl (origin ++ q)
                (fun j => exists pth, In pth all /\ rss_job_ok chk nl (origin ++ pth) j) items
                (fun j J => ex_intro _ q (conj (Inc q (or_introl eq_refl)) J)) jobs F) as G.
  destruct (rss_items chk sch nl (origin ++ q) items jobs) as [js [|]]; cbn [fst] in G.
  - apply IH; assumption.
  - destruct js; [apply IH; assumption|exact G].
Qed.

(** Every job [fetch_rss_jobs] returns comes from one of the feed paths
    under the base URL's origin: its [source_url] is that feed, its
    [source_site] the base's [netloc] and its [metadata] the three fields
    date_posted, job_id and source_feed (the feed).  Its [application_url] is
    non-empty and [is_likely_job_posting] admitted it with the item's title,
    which is the [job_title] unless empty ("Untitled" then). *)
Theorem fetch_rss_jobs_jobs_ok chk get base jobs tried :
  fetch_rss_jobs chk get base = Some (jobs, tried) ->
  exists p, urlparse chk base = Some p
  /\ Forall (fun j => exists pth, In pth feed_paths
                /\ rss_job_ok chk (netloc p) ((scheme p ++ "://" ++ netloc p) ++ pth) j) jobs.
Proof.
  unfold fetch_rss_jobs; destruct (urlparse chk base) as [p|]; [|discriminate].
  intros H; apply some_inj in H; exists p; split; [reflexivity|].
  change jobs with (fst (jobs, tried)); rewrite <- H.
  exact (rss_loop_ok chk get (scheme p) (netloc p) (scheme p ++ "://" ++ netloc p)
           feed_paths feed_paths (incl_refl _) [] [] (Forall_nil _)).
Qed.

(** ** Page jobs *)

Lemma dict_set_keys (d : dict) (k k' : string) (v : option string) :
  In k' (map fst (dict_set d k v)) -> k' = k \/ In k' (map fst d).
Proof.
  induction d as [|[k0 v0] r IH]; cbn [dict_set map fst].
  - intros [<-|[]]; left; reflexivity.
  - destruct (String.eqb k k0) eqn:E.
    + apply String.eqb_eq in E; subst k0; intros [<-|I]; [left; reflexivity|right; right; exact I].
    + intros [<-|I]; [right; left; reflexivity|].
      destruct (IH I) as [H|H]; [left; exact H|right; right; exact H].
Qed.

Lemma metadata_loop_facts (pg : Page) (sels : list string) :
  forall m, dict_get m "source_page" = dict_get (metadata_loop pg sels m) "source_page"
  /\ (forall k, In k (map fst (metadata_loop pg sels m)) ->
       In k (map fst m) \/ k = "location" \/ k = "date_posted").
Proof.
  induction sels as [|s r IH]; intros m; cbn [metadata_loop]; [split; [reflexivity|auto]|].
  destruct (select_one pg s) as [el|]; [|apply IH].
  destruct (str_in "location" (lower s) || str_in "location" (el_class el));
    [|destruct (str_in "date" (lower s) || str_in "posted" (lower s)); [|apply IH]].
  - destruct (IH (dict_set m "location" (Some (el_text el)))) as [G K]; split.
    + rewrite <- G, dict_get_set_other; [reflexivity|discriminate].
    + intros k I; destruct (K k I) as [I'|H]; [|right; exact H].
      destruct (dict_set_keys _ _ _ _ I') as [H|H]; [right; left; exact H|left; exact H].
  - destruct (IH (dict_set m "date_posted" (Some (el_text el)))) as [G K]; split.
    + rewrite <- G, dict_get_set_other; [reflexivity|discriminate].
    + intros k I; destruct (K k I) as [I'|H]; [|right; exact H].
      destruct (dict_set_keys _ _ _ _ I') as [H|H]; [right; right; exact H|left; exact H].
Qed.

Lemma apply_href_nonempty (pg : Page) (sels : list string) (h : string) :
  apply_href pg sels = Some h -> h <> "".
Proof.
  induction sels as [|s r IH]; cbn [apply_href]; [discriminate|].
  destruct (select_one pg s) as [el|]; [|exact IH].
  destruct (el_href el) as [h'|]; [|exact IH].
  destruct (String.eqb_spec h' ""); [exact IH|intros H; injection H as <-; assumption].
Qed.

Lemma extract_job_from_html_app chk uj get url j :
  extract_job_from_html chk uj get url = Some (Some j) ->
  exists pg, get url = Some (200, pg)
  /\ match apply_href pg apply_selectors with
     | Some h => uj url h
     | None => Some url
     end = Some (application_url j).
Proof.
  unfold extract_job_from_html; cbv zeta.
  destruct (get url) as [[status pg]|]; [|discriminate].
  destruct (status =? 200) eqn:S; cbn [negb]; [|discriminate].
  apply Nat.eqb_eq in S; subst status.
  destruct (urlparse chk url) as [parsed|]; [|discriminate].
  destruct (match apply_href pg apply_selectors with
            | Some h => uj url h | None => Some url end) as [app_url|] eqn:A; [|discriminate].
  destruct (String.eqb (extract_title pg) "" && String.eqb (extract_description pg) "");
    [discriminate|].
  intros H; apply some_some_inj in H; subst j; exists pg; split; [reflexivity|exact A].
Qed.

(** A job returned by [extract_job_from_html] for [url] has [url] as its
    [source_url] and the [netloc] of [url] as its [source_site], a
    non-empty title, no [extracted_at], and metadata holding
    [source_page = url] with no keys other than source_page, location and
    date_posted.  Its [application_url] is [url] itself, or [urljoin(url,
    href)] for the non-empty [href] of an apply link. *)
Theorem extract_job_from_html_fields chk uj get url j :
  extract_job_from_html chk uj get url = Some (Some j) ->
  source_url j = url
  /\ (exists p, urlparse chk url = Some p /\ source_site j = netloc p)
  /\ job_title j <> "" /\ extracted_at j = None
  /\ dict_get (metadata j) "source_page" = Some (Some url)
  /\ (forall k, In k (map fst (metadata j)) ->
        k = "source_page" \/ k = "location" \/ k = "date_posted")
  /\ (application_url j = url \/ exists h, h <> "" /\ uj url h = Some (application_url j)).
Proof.
  intros H; destruct (extract_job_from_html_app chk uj get url j H) as (pg & G & A).
  apply extract_job_from_html_some in H as (pg' & parsed & app_url & G' & P & _ & ->).
  rewrite G in G'; injection G' as <-; cbn [source_url source_site job_title extracted_at
                                           metadata application_url] in *.
  destruct (metadata_loop_facts pg metadata_selectors [("source_page", Some url)]) as [M K].
  split; [reflexivity|split; [exists parsed; split; [exact P|reflexivity]|]].
  split; [destruct (String.eqb_spec (extract_title pg) ""); [discriminate|assumption]|].
  split; [reflexivity|split; [rewrite <- M; reflexivity|split]].
  - intros k I; destruct (K k I) as [[<-|[]]|H]; [left; reflexivity|right; exact H].
  - destruct (apply_href pg apply_selectors) as [h|] eqn:Ah.
    + right; exists h; split; [exact (apply_href_nonempty _ _ _ Ah)|exact A].
    + left; injection A as A; symmetry; exact A.
Qed.

(** ** The pipeline *)

Lemma no_blog_of (u : string) :
  negb (String.eqb u "") && (str_in "/blogs/" u || str_in "/blog/" u) = false ->
  str_in "/blogs/" u = false /\ str_in "/blog/" u = false.
Proof.
  destruct (String.eqb_spec u "") as [->|_]; cbn [negb andb]; [split; reflexivity|].
  intros H; apply orb_false_iff in H; exact H.
Qed.

Lemma add_job_inv chk now job c c' :
  pipeline_inv now c -> add_job chk now job c = Some c' -> pipeline_inv now c'.
Proof.
  intros [OK F]; unfold add_job; cbv zeta.
  destruct (negb (String.eqb (application_url job) "")
            && (str_in "/blogs/" (application_url job) || str_in "/blog/" (application_url job))) eqn:B;
    [intros H; injection H as <-; split; assumption|].
  apply no_blog_of in B as [B1 B2].
  match goal with |- match ?a with None => _ | Some _ => _ end = _ -> _ =>
    destruct a as [[|]|] end;
    [|intros H; injection H as <-; split; assumption|discriminate].
  destruct (key_in (job_key job) (seen_keys c)) eqn:K;
    [intros H; injection H as <-; split; assumption|].
  intros H; injection H as <-; split.
  - apply (corpus_ok_add c (set_extracted_at job now) OK).
    intros I; apply key_in_spec in I; change (job_key (set_extracted_at job now)) with (job_key job) in I.
    congruence.
  - cbn [all_jobs]; apply Forall_app; split; [exact F|].
    constructor; [split; [reflexivity|split; assumption]|constructor].
Qed.

Lemma try_add_job_inv chk now job c :
  pipeline_inv now c -> pipeline_inv now (try_add_job chk now job c).
Proof.
  intros I; unfold try_add_job.
  destruct (add_job chk now job c) as [c'|] eqn:A; [exact (add_job_inv _ _ _ _ _ I A)|exact I].
Qed.

Lemma add_all_inv chk now js :
  forall c, pipeline_inv now c -> pipeline_inv now (add_all chk now js c).
Proof.
  induction js as [|j r IH]; intros c I; cbn [add_all]; [exact I|].
  destruct (add_job chk now j c) as [c'|] eqn:A; [apply IH, (add_job_inv _ _ _ _ _ I A)|exact I].
Qed.

Lemma rss_step_inv chk fget now hubs :
  forall c, pipeline_inv now c -> pipeline_inv now (rss_step chk fget now hubs c).
Proof.
  induction hubs as [|u r IH]; intros c I; cbn [rss_step]; [exact I|].
  apply IH; destruct (fetch_rss_jobs chk fget u) as [[jobs _]|]; [apply add_all_inv|]; exact I.
Qed.

Lemma expand_links_inv chk uj get now links :
  forall c fetched, pipeline_inv now c -> pipeline_inv now (fst (expand_links chk uj get now links c fetched)).
Proof.
  induction links as [|[ju ct] r IH]; intros c fetched I; cbn [expand_links]; [exact I|].
  apply IH; destruct (extract_job_from_html chk uj get ju) as [[job|]|]; [apply try_add_job_inv|..]; exact I.
Qed.

Lemma process_page_url_inv chk uj links_of get now url c :
  pipeline_inv now c -> pipeline_inv now (fst (process_page_url chk uj links_of get now url c)).
Proof.
  intros I.
  assert (SP : pipeline_inv now (single_page chk uj get now url c)).
  { unfold single_page; destruct (extract_job_from_html chk uj get url) as [[job|]|];
      [apply try_add_job_inv|..]; exact I. }
  unfold process_page_url.
  destruct (urlparse chk url) as [parsed|]; [|exact I].
  destruct (is_listing_page chk url) as [[|]|]; [|exact SP|exact I].
  destruct (get url) as [[status pg]|]; [|exact I].
  destruct (negb (status =? 200)); [exact I|].
  destruct (links_of pg url (netloc parsed)); [exact SP|apply expand_links_inv; exact I].
Qed.

Lemma pages_step_inv chk uj links_of get now urls :
  forall c, pipeline_inv now c -> pipeline_inv now (pages_step chk uj links_of get now urls c).
Proof.
  induction urls as [|u r IH]; intros c I; cbn [pages_step]; [exact I|].
  apply IH, process_page_url_inv, I.
Qed.

Lemma merge_first_Forall (P : JobRecord -> Prop) key job l :
  (forall e, P e -> P (merge_into e job)) -> Forall P l -> Forall P (merge_first key job l).
Proof.
  intros HP; induction l as [|e r IH]; intros F; cbn [merge_first]; [exact F|].
  apply Forall_cons_iff in F as [Fe Fr].
  destruct (key_eqb (job_key e) key); constructor; auto.
Qed.

Lemma stored_ok_merge_into now e job : stored_ok now e -> stored_ok now (merge_into e job).
Proof.
  destruct (merge_into_fields e job) as (_ & A & _ & _ & X & _).
  unfold stored_ok; rewrite A, X; exact (fun H => H).
Qed.

Lemma enrich_job_inv chk now job c c' :
  pipeline_inv now c -> enrich_job chk now job c = Some c' -> pipeline_inv now c'.
Proof.
  intros I; unfold enrich_job; cbv zeta.
  destruct (negb (String.eqb (job_description job) "")
            || match metadata job with [] => false | _ => true end);
    [|intros H; injection H as <-; exact I].
  destruct (key_in (job_key job) (seen_keys c)); [|apply add_job_inv, I].
  intros H; injection H as <-; destruct I as [[E N] F]; split; [split|]; cbn [all_jobs seen_keys].
  - rewrite merge_first_keys; exact E.
  - exact N.
  - exact (merge_first_Forall _ _ _ _ (fun e => stored_ok_merge_into now e job) F).
Qed.

Lemma enrich_step_inv chk uj get now urls :
  forall c, pipeline_inv now c -> pipeline_inv now (enrich_step chk uj get now urls c).
Proof.
  induction urls as [|u r IH]; intros c I; cbn [enrich_step]; [exact I|].
  apply IH; destruct (extract_job_from_html chk uj get u) as [[job|]|]; [|exact I..].
  destruct (enrich_job chk now job c) as [c''|] eqn:E; [exact (enrich_job_inv _ _ _ _ _ I E)|exact I].
Qed.

Lemma pipeline_inv_empty now : pipeline_inv now empty_corpus.
Proof. split; [split; [reflexivity|constructor]|constructor]. Qed.

Lemma run_extraction_inv chk uj links_of fget get now links fr fj mx js :
  run_extraction chk uj links_of fget get now links fr fj mx = Some js ->
  exists c, pipeline_inv now c /\ js = all_jobs c.
Proof.
  unfold run_extraction; destruct links as [|l0 ls];
    [intros H; injection H as <-; exists empty_corpus; split; [apply pipeline_inv_empty|reflexivity]|].
  destruct (filter_opt (is_likely_career_hub chk) (l0 :: ls)) as [hubs|]; [|discriminate].
  destruct (filter_opt (is_likely_job_page chk) (l0 :: ls)) as [jp|]; [|discriminate].
  cbv zeta; intros H; injection H as <-; eexists; split; [|reflexivity].
  assert (I1 : pipeline_inv now (if fr && nonempty hubs then rss_step chk fget now hubs empty_corpus
                                 else empty_corpus))
    by (destruct (fr && nonempty hubs); [apply rss_step_inv|]; apply pipeline_inv_empty).
  match type of I1 with pipeline_inv _ ?c1 =>
    assert (I2 : pipeline_inv now (if fj && nonempty jp
                                   then pages_step chk uj links_of get now (py_prefix mx jp) c1
                                   else c1))
      by (destruct (fj && nonempty jp); [apply pages_step_inv|]; exact I1) end.
  match type of I2 with pipeline_inv _ ?c2 =>
    destruct (fr && nonempty hubs && fj); [apply enrich_step_inv|]; exact I2 end.
Qed.

Lemma filter_opt_none (f : string -> option bool) (l : list string) (u : string) :
  In u l -> f u = None -> filter_opt f l = None.
Proof.
  induction l as [|x r IH]; cbn [filter_opt]; [intros []|intros [<-|I] N].
  - rewrite N; reflexivity.
  - destruct (f x); [rewrite (IH I N); reflexivity|reflexivity].
Qed.

(** The jobs [run_extraction] returns have pairwise distinct identities
    [(source_site, application_url)]. *)
Theorem run_extraction_unique_keys chk uj links_of fget get now links fr fj mx js :
  run_extraction chk uj links_of fget get now links fr fj mx = Some js ->
  NoDup (map job_key js).
Proof.
  intros H; destruct (run_extraction_inv _ _ _ _ _ _ _ _ _ _ _ H) as (c & [[E N] _] & ->).
  rewrite <- E; exact N.
Qed.


(** A link that [urlparse] rejects makes [run_extraction] raise (in the
    hub filter, before anything is fetched), whatever the other links. *)
Theorem run_extraction_malformed_link chk uj links_of fget get now links fr fj mx u :
  In u links -> urlparse chk u = None ->
  run_extraction chk uj links_of fget get now links fr fj mx = None.
Proof.
  intros I P; unfold run_extraction.
  destruct links as [|l0 ls]; [destruct I|].
  rewrite (filter_opt_none (is_likely_career_hub chk) (l0 :: ls) u I);
    [reflexivity|unfold is_likely_career_hub; rewrite P; reflexivity].
Qed.


(** ** Instances of the extra properties *)

Lemma extract_job_links_from_listing_ok_witness :
  extract_job_links_from_listing no_bracket_check ex_urljoin ex_listing ex_listing_base
    "acme.avature.net" = Some ex_listing_links
  /\ NoDup (map fst ex_listing_links).
Proof.
  assert (H : extract_job_links_from_listing no_bracket_check ex_urljoin ex_listing ex_listing_base
                "acme.avature.net" = Some ex_listing_links) by (vm_compute; reflexivity).
  split; [exact H|].
  exact (proj1 (extract_job_links_from_listing_ok no_bracket_check ex_urljoin ex_listing
                  ex_listing_base "acme.avature.net" ex_listing_links H)).
Defined.

Lemma extract_job_links_from_listing_anchors_first_witness :
  extract_job_links_from_listing no_bracket_check ex_urljoin
    {| anchors := anchors ex_listing; blocks := [ex_block] |} ex_listing_base "acme.avature.net"
  = Some ex_listing_links.
Proof.
  exact (proj1 (extract_job_links_from_listing_anchors_first no_bracket_check ex_urljoin
                  (anchors ex_listing) [ex_block] ex_listing_base "acme.avature.net"
                  ex_listing_links ltac:(vm_compute; reflexivity) ltac:(discriminate))).
Defined.

Lemma fetch_rss_jobs_jobs_ok_witness :
  exists p, urlparse no_bracket_check ex_base = Some p
  /\ Forall (fun j => exists pth, In pth feed_paths
                /\ rss_job_ok no_bracket_check (netloc p) ((scheme p ++ "://" ++ netloc p) ++ pth) j)
            [ex_feed_job].
Proof.
  exact (fetch_rss_jobs_jobs_ok no_bracket_check ex_feed_get ex_base [ex_feed_job]
           ["/rss"; "/careers/rss"] ltac:(vm_compute; reflexivity)).
Defined.

Lemma extract_job_from_html_fields_witness :
  dict_get (metadata ex_page_job) "source_page" = Some (Some ex_detail_url).
Proof.
  exact (proj1 (proj2 (proj2 (proj2 (proj2
           (extract_job_from_html_fields no_bracket_check ex_urljoin ex_page_get ex_detail_url
              ex_page_job ltac:(vm_compute; reflexivity))))))).
Defined.

Lemma run_extraction_unique_keys_witness :
  NoDup (map job_key [ex_enriched_job]).
Proof.
  exact (run_extraction_unique_keys no_bracket_check ex_urljoin (fun _ _ _ => []) ex_feed_get
           ex_page_get ex_now [ex_base] true true 500%Z [ex_enriched_job]
           ltac:(vm_compute; reflexivity)).
Defined.


Lemma run_extraction_malformed_link_witness :
  run_extraction no_bracket_check ex_urljoin (fun _ _ _ => []) ex_feed_get ex_page_get ex_now
    [ex_base; "http://["] true true 500%Z = None.
Proof.
  exact (run_extraction_malformed_link no_bracket_check ex_urljoin (fun _ _ _ => []) ex_feed_get
           ex_page_get ex_now [ex_base; "http://["] true true 500%Z "http://["
           (or_intror (or_introl eq_refl)) ltac:(vm_compute; reflexivity)).
Defined.

